(** * Focus: the AI-augmented "first step" concept (src/unnamed/part_000)

    Shallow embedding of the [Focus] class: per-user maps of current
    tasks and suggestions, the response extraction of
    [parseAndStoreSuggestion], the three validators, and the
    orchestration [generateFirstStep].

    Text model.  A JavaScript string is a sequence of UTF-16 code units.
    We model the fragment whose code units are all below 256 as
    [list ascii] (each [ascii] is one 8-bit code unit).  On that fragment
    [trim], [toLowerCase], [indexOf], [startsWith], [includes] and
    [split(' ')] are written out below exactly as ECMAScript defines them. *)

From Stdlib Require Import Ascii String List Arith Lia Bool.
From stdpp Require Import base gmap strings.
Import ListNotations.

Open Scope list_scope.

Abbreviation text := (list ascii).

#[local] Set Warnings "-register-all".

(** String literals as code-unit lists. *)
Definition js (s : string) : text := list_ascii_of_string s.

(** ** JavaScript string primitives *)

Definition code (c : ascii) : nat := nat_of_ascii c.

(** The double-quote code unit. *)
Definition dquote : ascii := ascii_of_nat 34.

(** ECMAScript WhiteSpace and LineTerminator code points below 256:
    TAB, LF, VT, FF, CR, SPACE, NO-BREAK SPACE. *)
Definition is_js_ws (c : ascii) : bool :=
  let n := code c in
  (n =? 9) || (n =? 10) || (n =? 11) || (n =? 12) || (n =? 13)
  || (n =? 32) || (n =? 160).

Fixpoint trim_start (s : text) : text :=
  match s with
  | [] => []
  | c :: r => if is_js_ws c then trim_start r else s
  end.

(** [String.prototype.trim] *)
Definition trim (s : text) : text := rev (trim_start (rev (trim_start s))).

(** [String.prototype.toLowerCase] on code units below 256: the Latin
    capitals A-Z and U+00C0-U+00DE except U+00D7 map 32 code units up. *)
Definition lower_char (c : ascii) : ascii :=
  let n := code c in
  if ((65 <=? n) && (n <=? 90)) || ((192 <=? n) && (n <=? 222) && negb (n =? 215))
  then ascii_of_nat (n + 32) else c.

Definition toLowerCase (s : text) : text := map lower_char s.

(** [s.split(' ')[0]]: everything before the first space. *)
Fixpoint split_space_first (s : text) : text :=
  match s with
  | [] => []
  | c :: r => if Ascii.eqb c " "%char then [] else c :: split_space_first r
  end.

(** [s.startsWith(p)] *)
Fixpoint startsWith (s p : text) : bool :=
  match p, s with
  | [], _ => true
  | c :: p', d :: s' => Ascii.eqb c d && startsWith s' p'
  | _ :: _, [] => false
  end.

(** [s.includes(p)] *)
Fixpoint includes (s p : text) : bool :=
  startsWith s p ||
  match s with
  | [] => false
  | _ :: s' => includes s' p
  end.

(** [s.indexOf(c)] for a one-character needle; [None] stands for -1. *)
Fixpoint indexOf (s : text) (c : ascii) : option nat :=
  match s with
  | [] => None
  | d :: r => if Ascii.eqb d c then Some 0
              else option_map S (indexOf r c)
  end.

(** [s.substring(k)] for [k >= 0]. *)
Definition substring_from (s : text) (k : nat) : text := skipn k s.

(** [Math.min(...xs)] for a non-empty array. *)
Definition list_min (x : nat) (xs : list nat) : nat := fold_left Nat.min xs x.

(** ** The validators of [Focus] *)

Definition ACTION_VERBS : list text := map js
  [ (* Creation & Writing *)
    "write"; "create"; "draft"; "outline"; "list"; "sketch"; "draw"; "jot"; "type";
    (* Investigation & Research *)
    "find"; "search"; "look up"; "read"; "review"; "identify"; "gather"; "watch";
    (* Setup & Organization *)
    "open"; "set up"; "organize"; "schedule"; "book"; "add"; "download"; "install";
    (* Communication & Interpersonal *)
    "email"; "message"; "call"; "ask"; "send";
    (* Physical Actions *)
    "take out"; "move"; "put"; "go to"; "get";
    (* Technical & Process Actions *)
    "run"; "test"; "debug"; "check" ]%string.

(** [validateIsActionable] (true = no exception). *)
Definition validateIsActionable (t : text) : bool :=
  let firstWord := toLowerCase (split_space_first (trim t)) in
  existsb (fun verb => startsWith firstWord verb) ACTION_VERBS.

Definition RED_FLAG_PHRASES : list text := map js
  [ "complete the"; "finish the"; "finalize the"; "implement the"; "build the";
    "design the"; "write the entire"; "write the full"; "create the whole";
    "the entire module"; "the whole chapter"; "the full draft"; "the first draft";
    "the final version"; "the complete list";
    "all of the"; "every part of"; "the rest of the"; "organize all";
    "clean the entire" ]%string.

(** [validateIsShort] (true = no exception). *)
Definition validateIsShort (t : text) : bool :=
  let lowerText := toLowerCase t in
  negb (existsb (fun word => includes lowerText word) RED_FLAG_PHRASES).

Definition terminators : list ascii := ["."%char; "?"%char; "!"%char].

(** [terminators.map(t => text.indexOf(t)).filter(i => i !== -1)] *)
Definition terminator_indices (t : text) : list nat :=
  fold_right (fun o acc => match o with Some i => i :: acc | None => acc end) []
    (map (indexOf t) terminators).

(** [validateIsSingleSentence] (true = no exception). *)
Definition validateIsSingleSentence (t : text) : bool :=
  match terminator_indices t with
  | [] => true
  | i :: is =>
      let firstTerminatorIndex := list_min i is in
      let remainingText := trim (substring_from t (firstTerminatorIndex + 1)) in
      negb (0 <? length remainingText)
  end.

(** ** JSON.parse, on the modelled fragment of strings *)

Inductive json : Type :=
| JNull
| JBool (b : bool)
| JNum (lexeme : text)
| JStr (s : text)
| JArr (l : list json)
| JObj (members : list (text * json)).

Definition is_json_ws (c : ascii) : bool :=
  let n := code c in (n =? 32) || (n =? 9) || (n =? 10) || (n =? 13).

Fixpoint skip_ws (s : text) : text :=
  match s with
  | c :: r => if is_json_ws c then skip_ws r else s
  | [] => []
  end.

Definition is_digit (c : ascii) : bool := (48 <=? code c) && (code c <=? 57).

Definition hex_val (c : ascii) : option nat :=
  let n := code c in
  if (48 <=? n) && (n <=? 57) then Some (n - 48)
  else if (65 <=? n) && (n <=? 70) then Some (n - 55)
  else if (97 <=? n) && (n <=? 102) then Some (n - 87)
  else None.

(** Body of a string literal, after the opening quote.  A [\uXXXX]
    escape denoting a code unit of 256 or more lies outside the modelled
    fragment and is reported as [None]. *)
Fixpoint parse_str_body (s : text) (acc : text) : option (text * text) :=
  match s with
  | [] => None
  | c :: r =>
    if Ascii.eqb c dquote then Some (rev acc, r)
    else if Ascii.eqb c "\"%char then
      match r with
      | e :: r' =>
        let simple (d : ascii) := parse_str_body r' (d :: acc) in
        if Ascii.eqb e dquote then simple dquote
        else if Ascii.eqb e "\"%char then simple "\"%char
        else if Ascii.eqb e "/"%char then simple "/"%char
        else if Ascii.eqb e "b"%char then simple (ascii_of_nat 8)
        else if Ascii.eqb e "f"%char then simple (ascii_of_nat 12)
        else if Ascii.eqb e "n"%char then simple (ascii_of_nat 10)
        else if Ascii.eqb e "r"%char then simple (ascii_of_nat 13)
        else if Ascii.eqb e "t"%char then simple (ascii_of_nat 9)
        else if Ascii.eqb e "u"%char then
          match r' with
          | h1 :: h2 :: h3 :: h4 :: r'' =>
            match hex_val h1, hex_val h2, hex_val h3, hex_val h4 with
            | Some a, Some b, Some c', Some d =>
              let v := ((a * 16 + b) * 16 + c') * 16 + d in
              if v <? 256 then parse_str_body r'' (ascii_of_nat v :: acc) else None
            | _, _, _, _ => None
            end
          | _ => None
          end
        else None
      | [] => None
      end
    else if code c <? 32 then None
    else parse_str_body r (c :: acc)
  end.

Fixpoint span_digits (s : text) : text * text :=
  match s with
  | c :: r => if is_digit c then let (d, r') := span_digits r in (c :: d, r') else ([], s)
  | [] => ([], [])
  end.

(** Number grammar: [-? (0 | [1-9][0-9]* ) (. [0-9]+)? ([eE] [+-]? [0-9]+)?].
    The value is kept as its lexeme. *)
Definition parse_number (s : text) : option (text * text) :=
  let (sign, s1) := match s with
                    | c :: r => if Ascii.eqb c "-"%char then ([c], r) else ([], s)
                    | [] => ([], s) end in
  let int_part :=
    match s1 with
    | c :: r => if Ascii.eqb c "0"%char then Some ([c], r)
                else if is_digit c then let (d, r') := span_digits r in Some (c :: d, r')
                else None
    | [] => None
    end in
  match int_part with
  | None => None
  | Some (ip, s2) =>
    let frac :=
      match s2 with
      | c :: r => if Ascii.eqb c "."%char then
                    let (d, r') := span_digits r in
                    match d with [] => None | _ => Some (c :: d, r') end
                  else Some ([], s2)
      | [] => Some ([], s2)
      end in
    match frac with
    | None => None
    | Some (fp, s3) =>
      let expo :=
        match s3 with
        | c :: r => if Ascii.eqb c "e"%char || Ascii.eqb c "E"%char then
                      let (sg, r1) := match r with
                                      | d :: r2 => if Ascii.eqb d "+"%char || Ascii.eqb d "-"%char
                                                   then ([d], r2) else ([], r)
                                      | [] => ([], r) end in
                      let (d, r') := span_digits r1 in
                      match d with [] => None | _ => Some (c :: sg ++ d, r') end
                    else Some ([], s3)
        | [] => Some ([], s3)
        end in
      match expo with
      | None => None
      | Some (ep, s4) => Some (sign ++ ip ++ fp ++ ep, s4)
      end
    end
  end.

(** Exact keyword prefix. *)
Fixpoint eat (kw s : text) : option text :=
  match kw, s with
  | [], _ => Some s
  | k :: kw', c :: s' => if Ascii.eqb k c then eat kw' s' else None
  | _ :: _, [] => None
  end.

(** Recursive descent; every call consumes at least one code unit before
    the next nested call, so [length s + 1] fuel suffices ([JSON_parse]
    passes more). *)
Fixpoint parse_value (fuel : nat) (s : text) : option (json * text) :=
  match fuel with
  | O => None
  | S f =>
    match skip_ws s with
    | [] => None
    | c :: r =>
      if Ascii.eqb c "{"%char then
        match skip_ws r with
        | d :: r' => if Ascii.eqb d "}"%char then Some (JObj [], r')
                     else parse_members f (skip_ws r) []
        | [] => None
        end
      else if Ascii.eqb c "["%char then
        match skip_ws r with
        | d :: r' => if Ascii.eqb d "]"%char then Some (JArr [], r')
                     else parse_elements f r []
        | [] => None
        end
      else if Ascii.eqb c dquote then
        option_map (fun '(t, r') => (JStr t, r')) (parse_str_body r [])
      else if Ascii.eqb c "t"%char then option_map (fun r' => (JBool true, r')) (eat (js "rue") r)
      else if Ascii.eqb c "f"%char then option_map (fun r' => (JBool false, r')) (eat (js "alse") r)
      else if Ascii.eqb c "n"%char then option_map (fun r' => (JNull, r')) (eat (js "ull") r)
      else option_map (fun '(t, r') => (JNum t, r')) (parse_number (c :: r))
    end
  end
(** Object members: [s] starts at a member key. *)
with parse_members (fuel : nat) (s : text) (acc : list (text * json))
  : option (json * text) :=
  match fuel with
  | O => None
  | S f =>
    match s with
    | q :: r =>
      if Ascii.eqb q dquote then
        match parse_str_body r [] with
        | Some (k, r1) =>
          match skip_ws r1 with
          | col :: r2 =>
            if Ascii.eqb col ":"%char then
              match parse_value f r2 with
              | Some (v, r3) =>
                match skip_ws r3 with
                | d :: r4 =>
                  if Ascii.eqb d ","%char then parse_members f (skip_ws r4) ((k, v) :: acc)
                  else if Ascii.eqb d "}"%char then Some (JObj (rev ((k, v) :: acc)), r4)
                  else None
                | [] => None
                end
              | None => None
              end
            else None
          | [] => None
          end
        | None => None
        end
      else None
    | [] => None
    end
  end
(** Array elements: [s] starts at an element. *)
with parse_elements (fuel : nat) (s : text) (acc : list json) : option (json * text) :=
  match fuel with
  | O => None
  | S f =>
    match parse_value f s with
    | Some (v, r) =>
      match skip_ws r with
      | d :: r' =>
        if Ascii.eqb d ","%char then parse_elements f r' (v :: acc)
        else if Ascii.eqb d "]"%char then Some (JArr (rev (v :: acc)), r')
        else None
      | [] => None
      end
    | None => None
    end
  end.

(** [JSON.parse]: one value, then only white space.  [None] is a thrown
    [SyntaxError]. *)
Definition JSON_parse (s : text) : option json :=
  match parse_value (2 * length s + 2) s with
  | Some (v, r) => match skip_ws r with [] => Some v | _ => None end
  | None => None
  end.

(** Property read [obj.key] on a parsed value: [JSON.parse] keeps the
    last of duplicate keys. *)
Definition get_field (v : json) (key : text) : option json :=
  match v with
  | JObj ms =>
    fold_left (fun acc '(k, x) => if decide (k = key) then Some x else acc) ms None
  | _ => None
  end.

(** ** Response extraction *)

(** Longest prefix of [s] ending in ['}'], i.e. [[\s\S]*\}] matched
    greedily with backtracking. *)
Fixpoint greedy_close (s : text) : option text :=
  match s with
  | [] => None
  | c :: r =>
    match greedy_close r with
    | Some b => Some (c :: b)
    | None => if Ascii.eqb c "}"%char then Some [c] else None
    end
  end.

(** [responseText.match(/\{[\s\S]*\}/)]: the leftmost start position
    at which the pattern matches, with the greedy (longest) match there. *)
Fixpoint regex_match (s : text) : option text :=
  match s with
  | [] => None
  | c :: r =>
    if Ascii.eqb c "{"%char then
      match greedy_close r with
      | Some b => Some (c :: b)
      | None => regex_match r
      end
    else regex_match r
  end.

(** Errors thrown by [Focus], one constructor per [throw] site (and per
    exception raised by a callee). *)
Inductive Err : Type :=
| ErrNoCurrentTask (uid : string)  (* "... no current task is set." *)
| ErrLLM (msg : string)            (* rethrown from [llm.executeLLM] *)
| ErrNoJson                        (* "No valid JSON object found ..." *)
| ErrJsonSyntax                    (* SyntaxError from [JSON.parse] *)
| ErrBadFormat                     (* "Invalid response format ..." *)
| ErrNotActionable (got : text)    (* "... not an actionable command. Got: ..." *)
| ErrTooLarge (got : text)         (* "... implies too large a scope. Got: ..." *)
| ErrNotSingleSentence (got : text). (* "... must be a single sentence. Got: ..." *)

(** Lines 102-113 of [parseAndStoreSuggestion]: from the raw response to
    the candidate [suggestionText].  This part touches no state. *)
Definition extractSuggestion (responseText : text) : Err + text :=
  match regex_match responseText with
  | None => inl ErrNoJson
  | Some jsonMatch =>
    match JSON_parse jsonMatch with
    | None => inl ErrJsonSyntax
    | Some response =>
      (* the match starts with '{', so a parsed [response] is an object *)
      match get_field response (js "suggestion") with
      | Some (JStr s) => inr s
      | _ => inl ErrBadFormat
      end
    end
  end.

(** ** State of a [Focus] object *)

Record Task := { description : text }.

Record FirstStepSuggestion := { forTask : Task; suggestionText : text }.

(** [user.id] keys both maps. *)
Record Focus := {
  currentTasks : gmap string Task;
  suggestions : gmap string FirstStepSuggestion }.

Definition new_Focus : Focus := {| currentTasks := ∅; suggestions := ∅ |}.

(** A state and error monad: a method runs on the object and either
    returns or throws; mutations made before a throw persist, as on a
    JavaScript object. *)
Definition M (A : Type) : Type := Focus -> Focus * (Err + A).

Definition retM {A} (a : A) : M A := fun st => (st, inr a).
Definition throwM {A} (e : Err) : M A := fun st => (st, inl e).
Definition bindM {A B} (m : M A) (k : A -> M B) : M B :=
  fun st => match m st with
            | (st', inl e) => (st', inl e)
            | (st', inr a) => k a st'
            end.

Notation "'let*' x ':=' m 'in' k" := (bindM m (fun x => k))
  (at level 200, x name, m at level 100, k at level 200).

Definition modifyM (f : Focus -> Focus) : M unit := fun st => (f st, inr tt).
Definition getsM {A} (f : Focus -> A) : M A := fun st => (st, inr (f st)).

(** ** Methods *)

Definition setCurrentTask (uid : string) (task : Task) : M unit :=
  let* _ := modifyM (fun st => {| currentTasks := <[uid := task]> (currentTasks st);
                                 suggestions := suggestions st |}) in
  (* When the task changes, the old suggestion is no longer valid *)
  modifyM (fun st => {| currentTasks := currentTasks st;
                        suggestions := delete uid (suggestions st) |}).

Definition clearCurrentTask (uid : string) : M unit :=
  let* _ := modifyM (fun st => {| currentTasks := delete uid (currentTasks st);
                                 suggestions := suggestions st |}) in
  modifyM (fun st => {| currentTasks := currentTasks st;
                        suggestions := delete uid (suggestions st) |}).

Definition getCurrentTask (uid : string) : M (option Task) :=
  getsM (fun st => currentTasks st !! uid).

(** Validators as the methods that throw. *)
Definition validateIsActionableM (t : text) : M unit :=
  if validateIsActionable t then retM tt else throwM (ErrNotActionable t).
Definition validateIsShortM (t : text) : M unit :=
  if validateIsShort t then retM tt else throwM (ErrTooLarge t).
Definition validateIsSingleSentenceM (t : text) : M unit :=
  if validateIsSingleSentence t then retM tt else throwM (ErrNotSingleSentence t).

Definition parseAndStoreSuggestion (responseText : text) (uid : string) (task : Task)
  : M unit :=
  match extractSuggestion responseText with
  | inl e => throwM e
  | inr suggestionText =>
    let* _ := validateIsActionableM suggestionText in
    let* _ := validateIsShortM suggestionText in
    let* _ := validateIsSingleSentenceM suggestionText in
    let suggestion := {| forTask := task; suggestionText := suggestionText |} in
    modifyM (fun st => {| currentTasks := currentTasks st;
                          suggestions := <[uid := suggestion]> (suggestions st) |})
  end.

(** [createFirstStepPrompt]: the template literal, with the double
    quotes of the template spliced in as [dquote]. *)
Definition createFirstStepPrompt (task : Task) : text :=
  let q := [dquote] in
  js "
            You are a productivity AI. Your only goal is to defeat procrastination.
            Your goal is to provide a single, concrete, physical or digital action that a person can complete in five minutes or less to get started on their task.

            CRITICAL RULES:
            1. The action must be a single sentence.
            2. The action must be a direct concrete command (e.g., "
  ++ q ++ js "Open..." ++ q ++ js ", " ++ q ++ js "Write..." ++ q ++ js ", "
  ++ q ++ js "List..." ++ q ++ js "). Do not suggest mental actions like "
  ++ q ++ js "Think about..." ++ q
  ++ js ". Give something that is easily executable given your instructions.
            3. Your entire output MUST be ONLY a valid JSON object. Do not add any other text, explanations, or markdown formatting like ```json.
            4. Be accurate - suggest ONLY actions that correspond to starting the task and are helpful.
            5. Do not make unwarranted assumptions about the user's context, tools, and workflow.

            TASK: " ++ q ++ description task ++ q ++ js "

            JSON OUTPUT:
            {
            " ++ q ++ js "suggestion" ++ q ++ js ": " ++ q
  ++ js "The short, actionable command." ++ q ++ js "
            }".

(** The model client: [llm.executeLLM(prompt)] either rejects with an
    error message or resolves to the response text. *)
Definition LLM : Type := text -> string + text.

(** [generateFirstStep(user, llm)], run to completion: the
    [await] resolves with [llm prompt]; the [catch] rethrows unchanged. *)
Definition generateFirstStep (uid : string) (llm : LLM) : M unit :=
  let* currentTask := getCurrentTask uid in
  match currentTask with
  | None => throwM (ErrNoCurrentTask uid)
  | Some task =>
    let prompt := createFirstStepPrompt task in
    match llm prompt with
    | inl msg => throwM (ErrLLM msg)
    | inr response => parseAndStoreSuggestion response uid task
    end
  end.

(** The public operations, as driven by a caller that awaits each one
    before the next (section 5 of the spec). *)
Inductive Op : Type :=
| OpSetCurrentTask (uid : string) (task : Task)
| OpClearCurrentTask (uid : string)
| OpGetCurrentTask (uid : string)
| OpGenerateFirstStep (uid : string) (llm : LLM).

Definition run_op (o : Op) : M unit :=
  match o with
  | OpSetCurrentTask u t => setCurrentTask u t
  | OpClearCurrentTask u => clearCurrentTask u
  | OpGetCurrentTask u => let* _ := getCurrentTask u in retM tt
  | OpGenerateFirstStep u llm => generateFirstStep u llm
  end.

(** Running a sequence of operations; a thrown error is reported to the
    caller, who continues with the object as the failed call left it. *)
Fixpoint run_ops (ops : list Op) (st : Focus) : Focus :=
  match ops with
  | [] => st
  | o :: os => run_ops os (fst (run_op o st))
  end.

Definition reachable (st : Focus) : Prop := exists ops, st = run_ops ops new_Focus.

(** ** The specification's wording, for comparison *)

(** The "first '{' through last '}'" span of section 4.2. *)
Fixpoint last_index (s : text) (c : ascii) : option nat :=
  match s with
  | [] => None
  | d :: r => match last_index r c with
              | Some i => Some (S i)
              | None => if Ascii.eqb d c then Some 0 else None
              end
  end.

Definition brace_span (s : text) : option text :=
  match indexOf s "{"%char, last_index s "}"%char with
  | Some i, Some j => if i <? j then Some (firstn (j - i + 1) (skipn i s)) else None
  | _, _ => None
  end.

(** Section 4.3 (2): first whitespace-delimited token of the trimmed text. *)
Fixpoint first_ws_token (s : text) : text :=
  match s with
  | [] => []
  | c :: r => if is_js_ws c then [] else c :: first_ws_token r
  end.

Definition actionable_spec (t : text) : Prop :=
  exists verb, In verb ACTION_VERBS /\
    startsWith (toLowerCase (first_ws_token (trim t))) verb = true.

(** Section 4.3 (4): some non-white-space code unit after the first
    terminator. *)
Fixpoint first_terminator (t : text) : option nat :=
  match t with
  | [] => None
  | c :: r => if existsb (Ascii.eqb c) terminators then Some 0
              else option_map S (first_terminator r)
  end.

Definition multi_sentence_spec (t : text) : Prop :=
  exists k, first_terminator t = Some k /\
    exists c, In c (skipn (S k) t) /\ is_js_ws c = false.

(** The raw text [{"suggestion": "<s>"}]. *)
Definition json_suggestion (s : string) : text :=
  js "{" ++ [dquote] ++ js "suggestion" ++ [dquote] ++ js ": " ++ [dquote]
  ++ js s ++ [dquote] ++ js "}".

(** A model client that always answers with [r]. *)
Definition constant_llm (r : text) : LLM := fun _ => inr r.

(** ** Lemmas about the state methods *)

Definition all_validators (t : text) : bool :=
  validateIsActionable t && validateIsShort t && validateIsSingleSentence t.

(** The outcome of [parseAndStoreSuggestion]: it throws with the object
    unchanged, or stores one validated suggestion for [task] at [uid]. *)
Lemma parseAndStore_cases (resp : text) (uid : string) (task : Task) (st : Focus) :
  (exists e, parseAndStoreSuggestion resp uid task st = (st, inl e)) \/
  (exists s, extractSuggestion resp = inr s /\ all_validators s = true /\
     parseAndStoreSuggestion resp uid task st =
       ({| currentTasks := currentTasks st;
           suggestions := <[uid := {| forTask := task; suggestionText := s |}]>
                            (suggestions st) |}, inr tt)).
Proof.
  unfold parseAndStoreSuggestion.
  destruct (extractSuggestion resp) as [e | s]; [left; now exists e |].
  unfold bindM, validateIsActionableM, validateIsShortM, validateIsSingleSentenceM,
    all_validators.
  destruct (validateIsActionable s) eqn:HA; [| left; eexists; reflexivity].
  destruct (validateIsShort s) eqn:HS; [| left; eexists; reflexivity].
  destruct (validateIsSingleSentence s) eqn:HSS; [| left; eexists; reflexivity].
  right. exists s. rewrite HA, HS, HSS. repeat split.
Qed.

Lemma generateFirstStep_cases (uid : string) (llm : LLM) (st : Focus) :
  (exists e, generateFirstStep uid llm st = (st, inl e)) \/
  (exists task s, currentTasks st !! uid = Some task /\ all_validators s = true /\
     generateFirstStep uid llm st =
       ({| currentTasks := currentTasks st;
           suggestions := <[uid := {| forTask := task; suggestionText := s |}]>
                            (suggestions st) |}, inr tt)).
Proof.
  unfold generateFirstStep, bindM, getCurrentTask, getsM. cbv beta iota zeta.
  destruct (currentTasks st !! uid) as [task |] eqn:Ht; [| left; eexists; reflexivity].
  destruct (llm (createFirstStepPrompt task)) as [msg | resp]; [left; eexists; reflexivity |].
  destruct (parseAndStore_cases resp uid task st) as [[e He] | [s (_ & Hv & Hs)]].
  - left. eauto.
  - right. exists task, s. repeat split; assumption.
Qed.

Lemma setCurrentTask_run (uid : string) (task : Task) (st : Focus) :
  setCurrentTask uid task st =
    ({| currentTasks := <[uid := task]> (currentTasks st);
        suggestions := delete uid (suggestions st) |}, inr tt).
Proof. reflexivity. Qed.

Lemma clearCurrentTask_run (uid : string) (st : Focus) :
  clearCurrentTask uid st =
    ({| currentTasks := delete uid (currentTasks st);
        suggestions := delete uid (suggestions st) |}, inr tt).
Proof. reflexivity. Qed.

(** Every operation preserves a predicate that holds of the fresh
    object, once each kind of step is shown to preserve it. *)
Section Reachable_invariant.
Variable P : Focus -> Prop.
Hypothesis P_new : P new_Focus.
Hypothesis P_set : forall st u t, P st -> P (fst (setCurrentTask u t st)).
Hypothesis P_clear : forall st u, P st -> P (fst (clearCurrentTask u st)).
Hypothesis P_gen : forall st u llm, P st -> P (fst (generateFirstStep u llm st)).

Lemma run_ops_preserves (ops : list Op) (st : Focus) : P st -> P (run_ops ops st).
Proof.
  revert st; induction ops as [| o os IH]; intros st Hst; [exact Hst |].
  cbn. apply IH.
  destruct o; [apply P_set | apply P_clear | | apply P_gen]; exact Hst.
Qed.

Lemma reachable_invariant (st : Focus) : reachable st -> P st.
Proof. intros [ops ->]. now apply run_ops_preserves. Qed.
End Reachable_invariant.

(** Suggestions are tied to the current task. *)
Definition suggestion_tied (st : Focus) : Prop :=
  forall u sg, suggestions st !! u = Some sg -> currentTasks st !! u = Some (forTask sg).

(** Stored suggestions passed every validator. *)
Definition suggestions_valid (st : Focus) : Prop :=
  forall u sg, suggestions st !! u = Some sg -> all_validators (suggestionText sg) = true.

Lemma suggestion_tied_new : suggestion_tied new_Focus.
Proof. intros u sg H. cbn in H. by rewrite lookup_empty in H. Qed.

Lemma suggestions_valid_new : suggestions_valid new_Focus.
Proof. intros u sg H. cbn in H. by rewrite lookup_empty in H. Qed.

Ltac user_cases u uid :=
  destruct (decide (u = uid)) as [-> | ?]; simplify_map_eq; eauto.

Lemma suggestion_tied_step_set (st : Focus) (uid : string) (t : Task) :
  suggestion_tied st -> suggestion_tied (fst (setCurrentTask uid t st)).
Proof.
  intros Hinv u sg. rewrite setCurrentTask_run. cbn. intros Hs.
  user_cases u uid.
Qed.

Lemma suggestion_tied_step_clear (st : Focus) (uid : string) :
  suggestion_tied st -> suggestion_tied (fst (clearCurrentTask uid st)).
Proof.
  intros Hinv u sg. rewrite clearCurrentTask_run. cbn. intros Hs.
  user_cases u uid.
Qed.

Lemma suggestion_tied_step_gen (st : Focus) (uid : string) (llm : LLM) :
  suggestion_tied st -> suggestion_tied (fst (generateFirstStep uid llm st)).
Proof.
  intros Hinv.
  destruct (generateFirstStep_cases uid llm st) as [[e ->] | (task & s & Ht & _ & ->)];
    [exact Hinv |].
  intros u sg. cbn. intros Hs. user_cases u uid.
Qed.

Lemma suggestions_valid_step_set (st : Focus) (uid : string) (t : Task) :
  suggestions_valid st -> suggestions_valid (fst (setCurrentTask uid t st)).
Proof.
  intros Hinv u sg. rewrite setCurrentTask_run. cbn. intros Hs.
  user_cases u uid.
Qed.

Lemma suggestions_valid_step_clear (st : Focus) (uid : string) :
  suggestions_valid st -> suggestions_valid (fst (clearCurrentTask uid st)).
Proof.
  intros Hinv u sg. rewrite clearCurrentTask_run. cbn. intros Hs.
  user_cases u uid.
Qed.

Lemma suggestions_valid_step_gen (st : Focus) (uid : string) (llm : LLM) :
  suggestions_valid st -> suggestions_valid (fst (generateFirstStep uid llm st)).
Proof.
  intros Hinv.
  destruct (generateFirstStep_cases uid llm st) as [[e ->] | (task & s & Ht & Hv & ->)];
    [exact Hinv |].
  intros u sg. cbn. intros Hs. user_cases u uid.
Qed.

(** ** Claims about the per-user state *)

(** C10: for every user [u] and task [T], [setCurrentTask(u, T)]
    followed by [getCurrentTask(u)] returns [T]. *)
Theorem set_then_get_current_task (st : Focus) (u : string) (T : Task) :
  let '(st1, r1) := setCurrentTask u T st in
  r1 = inr tt /\ snd (getCurrentTask u st1) = inr (Some T).
Proof. rewrite setCurrentTask_run. split; [reflexivity |]. cbn. by simplify_map_eq. Qed.

(** C4: after [setCurrentTask(u, T')] or [clearCurrentTask(u)] no
    suggestion is stored for [u]; and in every state reachable by
    operations run one after the other, a stored suggestion for [u] is
    for [u]'s current task. *)
Theorem suggestion_never_outlives_task :
  (forall (st : Focus) (u : string) (T' : Task),
      suggestions (fst (setCurrentTask u T' st)) !! u = None /\
      suggestions (fst (clearCurrentTask u st)) !! u = None) /\
  (forall st : Focus, reachable st ->
     forall (u : string) (sg : FirstStepSuggestion),
       suggestions st !! u = Some sg -> currentTasks st !! u = Some (forTask sg)).
Proof.
  split.
  - intros st u T'. rewrite setCurrentTask_run, clearCurrentTask_run. cbn.
    split; apply lookup_delete_eq.
  - intros st Hr.
    apply (reachable_invariant suggestion_tied); [| | | | exact Hr].
    + exact suggestion_tied_new.
    + apply suggestion_tied_step_set.
    + apply suggestion_tied_step_clear.
    + apply suggestion_tied_step_gen.
Qed.

(** C5: in every reachable state, every stored [suggestionText] passes
    the actionable, bounded-scope and single-sentence validators. *)
Theorem stored_suggestions_validated (st : Focus) (Hr : reachable st)
  (u : string) (sg : FirstStepSuggestion) :
  suggestions st !! u = Some sg ->
  validateIsActionable (suggestionText sg) = true /\
  validateIsShort (suggestionText sg) = true /\
  validateIsSingleSentence (suggestionText sg) = true.
Proof.
  intros Hs.
  assert (Hv : all_validators (suggestionText sg) = true).
  { revert u sg Hs. apply (reachable_invariant suggestions_valid); [| | | | exact Hr].
    - exact suggestions_valid_new.
    - apply suggestions_valid_step_set.
    - apply suggestions_valid_step_clear.
    - apply suggestions_valid_step_gen. }
  unfold all_validators in Hv. apply andb_true_iff in Hv as [Hv Hss].
  apply andb_true_iff in Hv as [Ha Hsh]. auto.
Qed.

(** C3: a failing [generateFirstStep] (no current task, model error,
    extraction error or validation error) leaves the whole object, both
    the suggestions and the current tasks, as it was. *)
Theorem generateFirstStep_failure_no_mutation (st st' : Focus) (u : string)
  (llm : LLM) (e : Err) :
  generateFirstStep u llm st = (st', inl e) -> st' = st.
Proof.
  destruct (generateFirstStep_cases u llm st) as [[e' ->] | (task & s & _ & _ & ->)];
    intros H; inversion H; reflexivity.
Qed.

(** ** Extraction lemmas *)

Lemma greedy_close_last (s : text) :
  greedy_close s =
    match last_index s "}"%char with
    | Some j => Some (firstn (S j) s)
    | None => None
    end.
Proof.
  induction s as [| c r IH]; [reflexivity |].
  cbn [greedy_close last_index]. rewrite IH.
  destruct (last_index r "}"%char) as [j |]; [reflexivity |].
  destruct (Ascii.eqb c "}"%char); reflexivity.
Qed.

Lemma brace_span_cons (c : ascii) (r : text) :
  brace_span (c :: r) =
    if Ascii.eqb c "{"%char then
      match last_index r "}"%char with
      | Some j => Some (c :: firstn (S j) r)
      | None => None
      end
    else
      match indexOf r "{"%char, last_index r "}"%char with
      | Some i, Some j => if i <? j then Some (firstn (j - i + 1) (skipn i r)) else None
      | _, _ => None
      end.
Proof.
  unfold brace_span. cbn [indexOf last_index].
  destruct (Ascii.eqb c "{"%char) eqn:Ho.
  - apply Ascii.eqb_eq in Ho; subst c.
    destruct (last_index r "}"%char) as [j |]; [| reflexivity].
    cbn -[firstn]. rewrite Nat.add_1_r. reflexivity.
  - destruct (indexOf r "{"%char) as [i |]; cbn [option_map]; [| reflexivity].
    destruct (last_index r "}"%char) as [j |].
    + cbn [Nat.ltb Nat.leb skipn]. reflexivity.
    + destruct (Ascii.eqb c "}"%char); reflexivity.
Qed.

(** The regular expression [/\{[\s\S]*\}/] selects exactly the span
    from the first ['{'] through the last ['}']. *)
Lemma regex_match_brace_span (s : text) : regex_match s = brace_span s.
Proof.
  induction s as [| c r IH]; [reflexivity |].
  rewrite brace_span_cons. cbn [regex_match]. rewrite greedy_close_last.
  destruct (Ascii.eqb c "{"%char) eqn:Ho.
  - destruct (last_index r "}"%char) as [j |] eqn:Hj; [reflexivity |].
    rewrite IH. unfold brace_span. rewrite Hj.
    destruct (indexOf r "{"%char); reflexivity.
  - rewrite IH. reflexivity.
Qed.

Lemma regex_match_skip_prefix (pre s : text) :
  ~ In "{"%char pre -> regex_match (pre ++ s) = regex_match s.
Proof.
  induction pre as [| c pre IH]; intros Hn; [reflexivity |].
  cbn [app regex_match].
  destruct (Ascii.eqb c "{"%char) eqn:E.
  - apply Ascii.eqb_eq in E. subst. exfalso. apply Hn. left. reflexivity.
  - apply IH. intros H. apply Hn. right. exact H.
Qed.

Lemma greedy_close_none (post : text) :
  ~ In "}"%char post -> greedy_close post = None.
Proof.
  induction post as [| c post IH]; intros Hn; [reflexivity |].
  cbn. rewrite IH by (intros H; apply Hn; right; exact H).
  destruct (Ascii.eqb c "}"%char) eqn:E; [| reflexivity].
  apply Ascii.eqb_eq in E. subst. exfalso. apply Hn. left. reflexivity.
Qed.

Lemma greedy_close_closed (b post : text) :
  ~ In "}"%char post -> greedy_close (b ++ "}"%char :: post) = Some (b ++ ["}"%char]).
Proof.
  intros Hn. induction b as [| c b IH]; cbn.
  - rewrite greedy_close_none by exact Hn. reflexivity.
  - rewrite IH. reflexivity.
Qed.

(** Prose before the object without ['{'], and after it without ['}'],
    is ignored. *)
Lemma regex_match_wrapped (pre b post : text) :
  ~ In "{"%char pre -> ~ In "}"%char post ->
  regex_match (pre ++ ("{"%char :: b ++ ["}"%char]) ++ post) =
    Some ("{"%char :: b ++ ["}"%char]).
Proof.
  intros Hpre Hpost. rewrite regex_match_skip_prefix by exact Hpre.
  cbn [app regex_match Ascii.eqb].
  replace ((b ++ ["}"%char]) ++ post) with (b ++ "}"%char :: post)
    by (rewrite <- app_assoc; reflexivity).
  rewrite greedy_close_closed by exact Hpost. reflexivity.
Qed.

Definition newline : ascii := ascii_of_nat 10.

(** The wrapped response of section 8:
    Sure! / ```json / {"suggestion": "Write one sentence."} / ```. *)
Definition fenced_response : text :=
  js "Sure!" ++ [newline] ++ js "```json" ++ [newline]
  ++ json_suggestion "Write one sentence." ++ [newline] ++ js "```".

(** C6: extraction takes the span from the first ['{'] through the
    last ['}'], parses it as JSON and yields its string field
    [suggestion]; it fails exactly when there is no span, the span does
    not parse, or the field is missing or not a string; it yields
    ["Open the file."] on [{"suggestion": "Open the file."}] and ignores
    surrounding prose and markdown fences. *)
Theorem extraction_greedy_span :
  (forall s : text, regex_match s = brace_span s) /\
  (forall s : text,
     extractSuggestion s =
       match brace_span s with
       | None => inl ErrNoJson
       | Some m =>
         match JSON_parse m with
         | None => inl ErrJsonSyntax
         | Some v =>
           match get_field v (js "suggestion") with
           | Some (JStr c) => inr c
           | _ => inl ErrBadFormat
           end
         end
       end) /\
  extractSuggestion (json_suggestion "Open the file.") = inr (js "Open the file.") /\
  (forall pre b post : text,
     ~ In "{"%char pre -> ~ In "}"%char post ->
     extractSuggestion (pre ++ ("{"%char :: b ++ ["}"%char]) ++ post) =
       extractSuggestion ("{"%char :: b ++ ["}"%char])) /\
  extractSuggestion fenced_response = inr (js "Write one sentence.").
Proof.
  split; [exact regex_match_brace_span |].
  split; [intros s; unfold extractSuggestion; rewrite regex_match_brace_span; reflexivity |].
  split; [vm_compute; reflexivity |].
  split; [| vm_compute; reflexivity].
  intros pre b post Hpre Hpost. unfold extractSuggestion.
  rewrite regex_match_wrapped by assumption.
  pose proof (regex_match_wrapped [] b []) as Hb. cbn [app] in Hb.
  rewrite app_nil_r in Hb. rewrite Hb by (intros []). reflexivity.
Qed.

(** ** Validator lemmas *)

Lemma lower_char_ws (c : ascii) : is_js_ws c = true -> lower_char c = c.
Proof.
  unfold is_js_ws, lower_char. intros H.
  repeat (apply orb_true_iff in H as [H | H]); apply Nat.eqb_eq in H;
    rewrite H; reflexivity.
Qed.

(** A verb is made of spaces and non-white-space code units. *)
Definition verb_ok (v : text) : bool :=
  forallb (fun d => Ascii.eqb d " "%char || negb (is_js_ws d)) v.

Lemma ACTION_VERBS_ok : forallb verb_ok ACTION_VERBS = true.
Proof. vm_compute. reflexivity. Qed.

Lemma space_is_ws : is_js_ws " "%char = true.
Proof. reflexivity. Qed.

(** Cutting at the first space or at the first white space gives the
    same prefix test against such a verb. *)
Lemma startsWith_token (x v : text) :
  verb_ok v = true ->
  startsWith (toLowerCase (split_space_first x)) v =
  startsWith (toLowerCase (first_ws_token x)) v.
Proof.
  revert v. induction x as [| c r IH]; intros v Hv; [reflexivity |].
  cbn [split_space_first first_ws_token].
  destruct (Ascii.eqb c " "%char) eqn:Hsp.
  - apply Ascii.eqb_eq in Hsp. subst c. rewrite space_is_ws. reflexivity.
  - destruct (is_js_ws c) eqn:Hws.
    + destruct v as [| d v']; [reflexivity |].
      cbn [toLowerCase map startsWith]. rewrite (lower_char_ws c Hws).
      cbn [verb_ok forallb] in Hv. apply andb_true_iff in Hv as [Hd _].
      destruct (Ascii.eqb d c) eqn:Hdc; [| reflexivity].
      apply Ascii.eqb_eq in Hdc. subst d. rewrite Hsp, Hws in Hd. discriminate.
    + destruct v as [| d v']; [reflexivity |].
      cbn [toLowerCase map startsWith].
      cbn [verb_ok forallb] in Hv. apply andb_true_iff in Hv as [_ Hv'].
      f_equal. apply IH. exact Hv'.
Qed.

(** C7: the actionable validator passes exactly when the lower-cased
    first white-space-delimited token of the trimmed text starts with one
    of [ACTION_VERBS]; that list has the multi-word entries "look up",
    "set up", "take out" and "go to" besides "write", "open" and
    "check"; "Open the document." passes, "Think about your options."
    and "You should write an outline." fail. *)
Theorem actionable_first_token_prefix :
  (forall t : text, validateIsActionable t = true <-> actionable_spec t) /\
  (In (js "look up") ACTION_VERBS /\ In (js "set up") ACTION_VERBS /\
   In (js "take out") ACTION_VERBS /\ In (js "go to") ACTION_VERBS /\
   In (js "write") ACTION_VERBS /\ In (js "open") ACTION_VERBS /\
   In (js "check") ACTION_VERBS) /\
  validateIsActionable (js "Open the document.") = true /\
  validateIsActionable (js "Think about your options.") = false /\
  validateIsActionable (js "You should write an outline.") = false.
Proof.
  split; [| split; [| split; [| split]]]; try (vm_compute; reflexivity).
  - intros t. unfold validateIsActionable, actionable_spec.
    rewrite existsb_exists. pose proof ACTION_VERBS_ok as Hok.
    rewrite forallb_forall in Hok.
    split; intros (v & Hin & Hs); exists v; split; try exact Hin;
      [rewrite <- startsWith_token | rewrite startsWith_token]; auto.
  - repeat split; repeat (first [left; reflexivity | right]).
Qed.

Lemma startsWith_iff (s p : text) : startsWith s p = true <-> exists b, s = p ++ b.
Proof.
  revert s. induction p as [| c p IH]; intros s; cbn.
  - split; [intros _; exists s; reflexivity | intros _; destruct s; reflexivity].
  - destruct s as [| d s]; split.
    + discriminate.
    + intros [b Hb]. discriminate.
    + intros H. apply andb_true_iff in H as [Hcd Hs].
      apply Ascii.eqb_eq in Hcd. subst d.
      apply IH in Hs as [b ->]. exists b. reflexivity.
    + intros [b Hb]. injection Hb as -> Hb.
      simpl. rewrite Ascii.eqb_refl. cbn. apply IH. exists b. exact Hb.
Qed.

Lemma includes_iff (s p : text) : includes s p = true <-> exists a b, s = a ++ p ++ b.
Proof.
  induction s as [| c s IH].
  - cbn. rewrite orb_false_r. split.
    + destruct p; [intros _; exists [], []; reflexivity | discriminate].
    + intros ([| x a] & b & H); [| discriminate].
      destruct p; [reflexivity | discriminate].
  - cbn [includes]. rewrite orb_true_iff, startsWith_iff, IH. split.
    + intros [[b Hb] | (a & b & Hab)].
      * exists [], b. exact Hb.
      * exists (c :: a), b. rewrite Hab. reflexivity.
    + intros ([| x a] & b & H).
      * left. exists b. exact H.
      * right. injection H as -> H. exists a, b. exact H.
Qed.

(** C8: the bounded-scope validator fails exactly when the lower-cased
    candidate contains one of [RED_FLAG_PHRASES] as a substring (among
    them "complete the", "finish the", "the entire module", "all of the");
    "List three tasks for this week." passes and "Finish the entire
    module." fails. *)
Theorem bounded_scope_red_flag_substring :
  (forall t : text,
     validateIsShort t = false <->
     exists w, In w RED_FLAG_PHRASES /\ exists a b, toLowerCase t = a ++ w ++ b) /\
  (In (js "complete the") RED_FLAG_PHRASES /\ In (js "finish the") RED_FLAG_PHRASES /\
   In (js "the entire module") RED_FLAG_PHRASES /\ In (js "all of the") RED_FLAG_PHRASES) /\
  validateIsShort (js "List three tasks for this week.") = true /\
  validateIsShort (js "Finish the entire module.") = false.
Proof.
  split; [| split; [| split; vm_compute; reflexivity]].
  - intros t. unfold validateIsShort. rewrite negb_false_iff, existsb_exists.
    split; intros (w & Hin & H); exists w; split; try exact Hin;
      apply includes_iff; exact H.
  - repeat split; repeat (first [left; reflexivity | right]).
Qed.

Lemma trim_start_nil (s : text) :
  trim_start s = [] <-> Forall (fun c => is_js_ws c = true) s.
Proof.
  induction s as [| c s IH]; cbn.
  - split; auto.
  - destruct (is_js_ws c) eqn:Hc.
    + rewrite IH. split; [intros H; constructor; auto | intros H; inversion H; auto].
    + split; [discriminate | intros H; inversion H; congruence].
Qed.

Lemma trim_start_all_ws (s : text) :
  Forall (fun c => is_js_ws c = true) (trim_start s) -> trim_start s = [].
Proof.
  intros H. apply trim_start_nil in H. rewrite <- H. clear H.
  induction s as [| c s IH]; cbn; [reflexivity |].
  destruct (is_js_ws c) eqn:Hc; [exact IH |]. cbn. rewrite Hc. reflexivity.
Qed.

(** [trim] empties exactly the all-white-space texts. *)
Lemma trim_nil (s : text) :
  trim s = [] <-> Forall (fun c => is_js_ws c = true) s.
Proof.
  unfold trim. split.
  - intros H. apply (f_equal (@rev ascii)) in H. rewrite rev_involutive in H.
    cbn in H. apply trim_start_nil in H. apply Forall_rev in H.
    rewrite rev_involutive in H. apply trim_start_all_ws in H.
    apply trim_start_nil. exact H.
  - intros H. apply trim_start_nil in H. rewrite H. reflexivity.
Qed.

Definition omin (a b : option nat) : option nat :=
  match a, b with
  | Some x, Some y => Some (Nat.min x y)
  | Some x, None => Some x
  | None, b => b
  end.

Lemma omin_S (a b : option nat) :
  omin (option_map S a) (option_map S b) = option_map S (omin a b).
Proof. destruct a, b; reflexivity. Qed.

Lemma indexOf_min_first_terminator (t : text) :
  omin (omin (indexOf t "."%char) (indexOf t "?"%char)) (indexOf t "!"%char) =
  first_terminator t.
Proof.
  induction t as [| c r IH]; [reflexivity |].
  cbn [indexOf first_terminator terminators existsb].
  destruct (Ascii.eqb c "."%char) eqn:E1;
    [apply Ascii.eqb_eq in E1; subst c; cbn;
     destruct (indexOf r "?"%char), (indexOf r "!"%char); reflexivity |].
  destruct (Ascii.eqb c "?"%char) eqn:E2;
    [apply Ascii.eqb_eq in E2; subst c; cbn;
     destruct (indexOf r "."%char), (indexOf r "!"%char); reflexivity |].
  destruct (Ascii.eqb c "!"%char) eqn:E3;
    [apply Ascii.eqb_eq in E3; subst c; cbn;
     destruct (indexOf r "."%char), (indexOf r "?"%char); cbn; rewrite ?Nat.min_0_r; reflexivity |].
  cbn [orb]. rewrite !omin_S, IH. reflexivity.
Qed.

(** [Math.min] over the found indices is the position of the first
    terminator. *)
Lemma validateIsSingleSentence_first (t : text) :
  validateIsSingleSentence t =
    match first_terminator t with
    | None => true
    | Some k => negb (0 <? length (trim (skipn (S k) t)))
    end.
Proof.
  rewrite <- indexOf_min_first_terminator.
  unfold validateIsSingleSentence, terminator_indices, substring_from, terminators.
  cbn [map fold_right].
  destruct (indexOf t "."%char) as [a |], (indexOf t "?"%char) as [b |],
    (indexOf t "!"%char) as [c |];
    cbn [omin list_min fold_left]; rewrite ?Nat.add_1_r; reflexivity.
Qed.

Lemma not_all_ws (l : text) :
  ~ Forall (fun c => is_js_ws c = true) l <-> exists c, In c l /\ is_js_ws c = false.
Proof.
  split.
  - induction l as [| c l IH]; intros H.
    + exfalso. apply H. constructor.
    + destruct (is_js_ws c) eqn:Hc.
      * destruct IH as (d & Hin & Hd).
        { intros Hf. apply H. constructor; assumption. }
        exists d. split; [right; exact Hin | exact Hd].
      * exists c. split; [left; reflexivity | exact Hc].
  - intros (c & Hin & Hc) Hf. rewrite List.Forall_forall in Hf.
    rewrite (Hf c Hin) in Hc. discriminate.
Qed.

(** C9: the single-sentence validator fails exactly when a
    non-white-space code unit follows the first ['.'], ['?'] or ['!'];
    with no terminator it passes; "Open a document." and "Open a
    document" pass, "Open a document. Then write a title." fails. *)
Theorem single_sentence_after_first_terminator :
  (forall t : text, validateIsSingleSentence t = false <-> multi_sentence_spec t) /\
  (forall t : text, first_terminator t = None -> validateIsSingleSentence t = true) /\
  validateIsSingleSentence (js "Open a document.") = true /\
  validateIsSingleSentence (js "Open a document. Then write a title.") = false /\
  validateIsSingleSentence (js "Open a document") = true.
Proof.
  split; [| split; [| split; [| split]]]; try (vm_compute; reflexivity).
  - intros t. rewrite validateIsSingleSentence_first. unfold multi_sentence_spec.
    destruct (first_terminator t) as [k |].
    + rewrite negb_false_iff, Nat.ltb_lt.
      split.
      * intros Hlt. exists k. split; [reflexivity |].
        apply not_all_ws. rewrite <- trim_nil.
        intros Hn. rewrite Hn in Hlt. cbn in Hlt. lia.
      * intros (k' & Hk & Hn). injection Hk as <-.
        apply not_all_ws in Hn. rewrite <- trim_nil in Hn.
        destruct (trim (skipn (S k) t)); [contradiction | cbn; lia].
    + split; [discriminate | intros (k & Hk & _); discriminate].
  - intros t Hn. rewrite validateIsSingleSentence_first, Hn. reflexivity.
Qed.

(** ** The validator pipeline and the precondition of [generateFirstStep] *)

Lemma parseAndStore_errors (resp : text) (uid : string) (task : Task) (st : Focus) (e : Err) :
  snd (parseAndStoreSuggestion resp uid task st) = inl e -> e <> ErrNoCurrentTask uid.
Proof.
  unfold parseAndStoreSuggestion.
  destruct (extractSuggestion resp) as [e' | s] eqn:Hx.
  - cbn. intros [= <-]. unfold extractSuggestion in Hx.
    destruct (regex_match resp) as [m |]; [| injection Hx as <-; discriminate].
    destruct (JSON_parse m) as [v |]; [| injection Hx as <-; discriminate].
    destruct (get_field v (js "suggestion")) as [[] |];
      try (injection Hx as <-; discriminate); discriminate.
  - unfold bindM, validateIsActionableM, validateIsShortM, validateIsSingleSentenceM.
    destruct (validateIsActionable s); [| cbn; intros [= <-]; discriminate].
    destruct (validateIsShort s); [| cbn; intros [= <-]; discriminate].
    destruct (validateIsSingleSentence s); cbn; [discriminate | intros [= <-]; discriminate].
Qed.

(** A user with current task "Write essay" and a model answering
    {"suggestion": "Open a document."}. *)
Definition essay_task : Task := {| description := js "Write essay" |}.
Definition trip_task : Task := {| description := js "Plan a trip" |}.
Definition essay_state : Focus := fst (setCurrentTask "u" essay_task new_Focus).
Definition open_doc_llm : LLM := constant_llm (json_suggestion "Open a document.").

(** C1 (as amended): once a candidate [s] is extracted, the validators
    run in the order actionable, bounded scope, single sentence; the
    first failing one throws its own error carrying [s], with the object
    unchanged; if all pass, [s] is stored.  There is no separate
    non-empty check: an empty or all-white-space candidate is rejected
    by the actionable validator. *)
Theorem validator_pipeline_order :
  (forall (resp : text) (uid : string) (task : Task) (st : Focus) (s : text),
     extractSuggestion resp = inr s ->
     parseAndStoreSuggestion resp uid task st =
       if negb (validateIsActionable s) then (st, inl (ErrNotActionable s))
       else if negb (validateIsShort s) then (st, inl (ErrTooLarge s))
       else if negb (validateIsSingleSentence s) then (st, inl (ErrNotSingleSentence s))
       else ({| currentTasks := currentTasks st;
                suggestions := <[uid := {| forTask := task; suggestionText := s |}]>
                                 (suggestions st) |}, inr tt)) /\
  (forall s : text, trim s = [] -> validateIsActionable s = false).
Proof.
  split.
  - intros resp uid task st s Hx. unfold parseAndStoreSuggestion. rewrite Hx.
    unfold bindM, validateIsActionableM, validateIsShortM, validateIsSingleSentenceM.
    destruct (validateIsActionable s), (validateIsShort s), (validateIsSingleSentence s);
      reflexivity.
  - intros s Hs. unfold validateIsActionable. rewrite Hs. reflexivity.
Qed.

(** C1 refuted as stated: the candidate "" is not reported by a
    non-empty validator (the code has none) but by the actionable one. *)
Lemma empty_candidate_fails_actionable :
  parseAndStoreSuggestion (json_suggestion "") "u" essay_task essay_state =
    (essay_state, inl (ErrNotActionable [])).
Proof. vm_compute. reflexivity. Qed.

(** C2 (as amended): [generateFirstStep(user, llm)] has no task
    parameter.  With no current task it throws the "no current task"
    error before calling the model, leaving the object unchanged; with a
    current task it prompts the model for that task and hands the answer
    to [parseAndStoreSuggestion]; the "no current task" error arises
    only in the first case, and no task-mismatch error exists. *)
Theorem generateFirstStep_requires_current_task (st : Focus) (u : string) (llm : LLM) :
  (currentTasks st !! u = None ->
     generateFirstStep u llm st = (st, inl (ErrNoCurrentTask u))) /\
  (forall task : Task, currentTasks st !! u = Some task ->
     generateFirstStep u llm st =
       match llm (createFirstStepPrompt task) with
       | inl msg => (st, inl (ErrLLM msg))
       | inr response => parseAndStoreSuggestion response u task st
       end) /\
  (snd (generateFirstStep u llm st) = inl (ErrNoCurrentTask u) ->
     currentTasks st !! u = None).
Proof.
  unfold generateFirstStep, bindM, getCurrentTask, getsM. cbv beta iota zeta.
  split; [intros ->; reflexivity |].
  split; [intros task ->; destruct (llm (createFirstStepPrompt task)); reflexivity |].
  destruct (currentTasks st !! u) as [task |]; [| reflexivity].
  destruct (llm (createFirstStepPrompt task)) as [msg | resp]; [discriminate |].
  intros H. exfalso. exact (parseAndStore_errors resp u task st _ H eq_refl).
Qed.

(** C2 refuted as stated: the call cannot see the task its caller means,
    so for a user whose current task is "Write essay" a call meant for
    "Plan a trip" succeeds instead of failing with a task mismatch. *)
Lemma generateFirstStep_no_mismatch_check :
  ~ (forall (st : Focus) (u : string) (llm : LLM) (T : Task),
       currentTasks st !! u <> Some T ->
       exists e, snd (generateFirstStep u llm st) = inl e).
Proof.
  intros H.
  destruct (H essay_state "u" open_doc_llm trip_task) as [e He].
  - vm_compute. discriminate.
  - vm_compute in He. discriminate.
Qed.

(** ** Witnesses *)

Definition prior_ops : list Op :=
  [OpSetCurrentTask "u" essay_task; OpGenerateFirstStep "u" open_doc_llm].
Definition prior_state : Focus := run_ops prior_ops new_Focus.
Definition think_llm : LLM :=
  constant_llm (json_suggestion "Think about what you want to accomplish.").

Lemma prior_state_reachable : reachable prior_state.
Proof. exists prior_ops. reflexivity. Qed.

Lemma generateFirstStep_failure_no_mutation_witness :
  generateFirstStep "u" think_llm prior_state =
    (prior_state, inl (ErrNotActionable (js "Think about what you want to accomplish.")))
  /\ prior_state = prior_state.
Proof.
  split; [vm_compute; reflexivity |].
  apply (generateFirstStep_failure_no_mutation prior_state prior_state "u" think_llm
           (ErrNotActionable (js "Think about what you want to accomplish."))).
  vm_compute. reflexivity.
Defined.

Lemma stored_suggestions_validated_witness :
  suggestions prior_state !! "u" =
    Some {| forTask := essay_task; suggestionText := js "Open a document." |} /\
  validateIsActionable (js "Open a document.") = true /\
  validateIsShort (js "Open a document.") = true /\
  validateIsSingleSentence (js "Open a document.") = true.
Proof.
  split; [vm_compute; reflexivity |].
  apply (stored_suggestions_validated prior_state prior_state_reachable "u"
           {| forTask := essay_task; suggestionText := js "Open a document." |}).
  vm_compute. reflexivity.
Defined.

(** * Further properties of [Focus] *)

(** [displayFocus(user)]: the lines written by [console.log], one
    constructor per logged template (the emoji and rules of the source
    are fixed text around the interpolated values). *)
Inductive LogLine : Type :=
| LHeader (uid : string)      (* `\n🎯 Current Focus for User: ${user.id}` *)
| LRule                       (* '===================================' *)
| LTask (description : text)  (* `TASK: ${task.description}` *)
| LFirstStep (s : text)       (* `💡 FIRST STEP: ${suggestion.suggestionText}` *)
| LNoStepYet                  (* `(No first step generated yet)` *)
| LNoTask                     (* 'No task currently in focus.' *)
| LRuleEnd.                   (* '===================================\n' *)

Definition displayFocus (uid : string) (st : Focus) : list LogLine :=
  let task := currentTasks st !! uid in
  let suggestion := suggestions st !! uid in
  [LHeader uid; LRule] ++
  match task with
  | Some t =>
    LTask (description t) ::
    match suggestion with
    | Some sg => [LFirstStep (suggestionText sg)]
    | None => [LNoStepYet]
    end
  | None => [LNoTask]
  end ++ [LRuleEnd].

(** [generateFirstStep] written out case by case. *)
Lemma generateFirstStep_unfold (uid : string) (llm : LLM) (st : Focus) :
  generateFirstStep uid llm st =
    match currentTasks st !! uid with
    | None => (st, inl (ErrNoCurrentTask uid))
    | Some task =>
      match llm (createFirstStepPrompt task) with
      | inl msg => (st, inl (ErrLLM msg))
      | inr response =>
        match extractSuggestion response with
        | inl e => (st, inl e)
        | inr s =>
          if negb (validateIsActionable s) then (st, inl (ErrNotActionable s))
          else if negb (validateIsShort s) then (st, inl (ErrTooLarge s))
          else if negb (validateIsSingleSentence s) then (st, inl (ErrNotSingleSentence s))
          else ({| currentTasks := currentTasks st;
                   suggestions := <[uid := {| forTask := task; suggestionText := s |}]>
                                    (suggestions st) |}, inr tt)
        end
      end
    end.
Proof.
  unfold generateFirstStep, bindM, getCurrentTask, getsM. cbv beta iota zeta.
  destruct (currentTasks st !! uid) as [task |]; [| reflexivity].
  destruct (llm (createFirstStepPrompt task)) as [msg | resp]; [reflexivity |].
  unfold parseAndStoreSuggestion.
  destruct (extractSuggestion resp) as [e | s]; [reflexivity |].
  unfold bindM, validateIsActionableM, validateIsShortM, validateIsSingleSentenceM.
  destruct (validateIsActionable s), (validateIsShort s), (validateIsSingleSentence s);
    reflexivity.
Qed.

Lemma reachable_tied (st : Focus) : reachable st -> suggestion_tied st.
Proof.
  intros Hr. apply (reachable_invariant suggestion_tied); [| | | | exact Hr].
  - exact suggestion_tied_new.
  - apply suggestion_tied_step_set.
  - apply suggestion_tied_step_clear.
  - apply suggestion_tied_step_gen.
Qed.

(** X1: the methods called for one user leave every other user's
    current task and suggestion as they were. *)
Theorem methods_frame_other_users (st : Focus) (u v : string) (T : Task) (llm : LLM) :
  u <> v ->
  let unchanged st' := currentTasks st' !! v = currentTasks st !! v /\
                       suggestions st' !! v = suggestions st !! v in
  unchanged (fst (setCurrentTask u T st)) /\
  unchanged (fst (clearCurrentTask u st)) /\
  unchanged (fst (generateFirstStep u llm st)).
Proof.
  intros Hne unchanged. unfold unchanged.
  rewrite setCurrentTask_run, clearCurrentTask_run. cbn [fst currentTasks suggestions].
  split; [split; by simplify_map_eq |].
  split; [split; by simplify_map_eq |].
  destruct (generateFirstStep_cases u llm st) as [[e ->] | (task & s & _ & _ & ->)];
    cbn; split; by simplify_map_eq.
Qed.

(** X2: after [clearCurrentTask(u)], [getCurrentTask(u)] returns
    [undefined]. *)
Theorem clear_then_get_current_task (st : Focus) (u : string) :
  snd (getCurrentTask u (fst (clearCurrentTask u st))) = inr None.
Proof. rewrite clearCurrentTask_run. cbn. by simplify_map_eq. Qed.

(** X3: a second [setCurrentTask] for the same user overwrites the
    first: the object is as if only the second call had been made. *)
Theorem set_current_task_overwrites (st : Focus) (u : string) (T T' : Task) :
  fst (setCurrentTask u T' (fst (setCurrentTask u T st))) = fst (setCurrentTask u T' st).
Proof.
  rewrite !setCurrentTask_run. cbn.
  by rewrite insert_insert_eq, delete_delete_eq.
Qed.

(** X4: in a reachable state, [clearCurrentTask] for a user with no
    current task changes nothing. *)
Theorem clear_without_task_noop (st : Focus) (u : string) :
  reachable st -> currentTasks st !! u = None -> fst (clearCurrentTask u st) = st.
Proof.
  intros Hr Hn. pose proof (reachable_tied st Hr) as Htied.
  rewrite clearCurrentTask_run. cbn. destruct st as [ct sg]. cbn in *.
  assert (Hs : sg !! u = None).
  { destruct (sg !! u) as [x |] eqn:Hx; [| reflexivity].
    apply Htied in Hx. cbn in Hx. congruence. }
  by rewrite !delete_id.
Qed.

Ltac gen_cases :=
  repeat match goal with
  | |- context [match ?x with _ => _ end] =>
      lazymatch x with
      | (_, _) => fail
      | true => fail
      | false => fail
      | negb true => fail
      | negb false => fail
      | negb ?y => destruct y eqn:?
      | _ => destruct x eqn:?
      end
  | H : context [match ?x with _ => _ end] |- _ =>
      lazymatch x with
      | (_, _) => fail
      | true => fail
      | false => fail
      | negb true => fail
      | negb false => fail
      | negb ?y => destruct y eqn:?
      | _ => destruct x eqn:?
      end
  end.

(** X5: a successful [generateFirstStep] leaves the current tasks as
    they were and stores, for that user, the candidate extracted from
    the model's answer to the prompt for the user's current task, after
    it passed all three validators; any earlier suggestion is replaced. *)
Theorem generateFirstStep_success (st st' : Focus) (u : string) (llm : LLM) :
  generateFirstStep u llm st = (st', inr tt) ->
  exists task response s,
    currentTasks st !! u = Some task /\
    llm (createFirstStepPrompt task) = inr response /\
    extractSuggestion response = inr s /\
    all_validators s = true /\
    currentTasks st' = currentTasks st /\
    suggestions st' = <[u := {| forTask := task; suggestionText := s |}]> (suggestions st).
Proof.
  rewrite generateFirstStep_unfold. unfold all_validators.
  gen_cases; cbn [negb andb] in *; try discriminate.
  intros [= <-]. do 3 eexists.
  repeat split; try eassumption; try reflexivity.
  match goal with H1 : validateIsActionable _ = true, H2 : validateIsShort _ = true,
                  H3 : validateIsSingleSentence _ = true |- _ => now rewrite H1, H2, H3 end.
Qed.

(** X6: without a current task the model is never consulted (the result
    does not depend on it); with one, only its answer to the prompt for
    that task matters. *)
Theorem generateFirstStep_model_use (st : Focus) (u : string) (llm1 llm2 : LLM) :
  (currentTasks st !! u = None -> generateFirstStep u llm1 st = generateFirstStep u llm2 st) /\
  (forall task, currentTasks st !! u = Some task ->
     llm1 (createFirstStepPrompt task) = llm2 (createFirstStepPrompt task) ->
     generateFirstStep u llm1 st = generateFirstStep u llm2 st).
Proof.
  rewrite !generateFirstStep_unfold. split.
  - intros ->. reflexivity.
  - intros task -> ->. reflexivity.
Qed.


(** X8: [displayFocus] right after [setCurrentTask(u, T)] shows [T] with
    no first step yet; right after [clearCurrentTask(u)] it shows no
    task. *)
Theorem display_after_set_and_clear (st : Focus) (u : string) (T : Task) :
  displayFocus u (fst (setCurrentTask u T st)) =
    [LHeader u; LRule; LTask (description T); LNoStepYet; LRuleEnd] /\
  displayFocus u (fst (clearCurrentTask u st)) = [LHeader u; LRule; LNoTask; LRuleEnd].
Proof.
  rewrite setCurrentTask_run, clearCurrentTask_run. unfold displayFocus. cbn.
  by rewrite lookup_insert_eq, !lookup_delete_eq.
Qed.

(** X9: after a successful [generateFirstStep], [displayFocus] shows the
    user's current task and, as its first step, the stored candidate. *)
Theorem display_after_generate (st st' : Focus) (u : string) (llm : LLM) :
  generateFirstStep u llm st = (st', inr tt) ->
  exists task s,
    currentTasks st !! u = Some task /\
    suggestions st' !! u = Some {| forTask := task; suggestionText := s |} /\
    displayFocus u st' = [LHeader u; LRule; LTask (description task); LFirstStep s; LRuleEnd].
Proof.
  intros Hg. apply generateFirstStep_success in Hg
    as (task & resp & s & Ht & _ & _ & _ & Hc & Hs).
  exists task, s. unfold displayFocus. rewrite Hc, Hs, Ht, lookup_insert_eq.
  repeat split.
Qed.

(** ** Lower-casing, checked over all 256 code units *)

Ltac all_code_units c :=
  destruct c as [[] [] [] [] [] [] [] []]; reflexivity.

Lemma lower_char_idem (c : ascii) : lower_char (lower_char c) = lower_char c.
Proof. all_code_units c. Qed.

Lemma lower_char_ws_iff (c : ascii) : is_js_ws (lower_char c) = is_js_ws c.
Proof. all_code_units c. Qed.

Lemma lower_char_space (c : ascii) :
  Ascii.eqb (lower_char c) " "%char = Ascii.eqb c " "%char.
Proof. all_code_units c. Qed.

Lemma lower_char_terminator (c : ascii) :
  existsb (Ascii.eqb (lower_char c)) terminators = existsb (Ascii.eqb c) terminators.
Proof. all_code_units c. Qed.

Lemma toLowerCase_idem (s : text) : toLowerCase (toLowerCase s) = toLowerCase s.
Proof.
  unfold toLowerCase. rewrite map_map.
  apply map_ext. apply lower_char_idem.
Qed.

Lemma trim_start_lower (s : text) : trim_start (toLowerCase s) = toLowerCase (trim_start s).
Proof.
  induction s as [| c s IH]; [reflexivity |].
  cbn [toLowerCase map trim_start]. rewrite lower_char_ws_iff.
  destruct (is_js_ws c); [exact IH | reflexivity].
Qed.

Lemma trim_lower (s : text) : trim (toLowerCase s) = toLowerCase (trim s).
Proof.
  unfold trim, toLowerCase. rewrite trim_start_lower. unfold toLowerCase.
  rewrite <- map_rev, trim_start_lower. unfold toLowerCase. symmetry. apply map_rev.
Qed.

Lemma split_space_first_lower (s : text) :
  split_space_first (toLowerCase s) = toLowerCase (split_space_first s).
Proof.
  induction s as [| c s IH]; [reflexivity |].
  cbn [toLowerCase map split_space_first]. rewrite lower_char_space.
  destruct (Ascii.eqb c " "%char); [reflexivity |]. cbn. f_equal. exact IH.
Qed.

Lemma first_terminator_lower (t : text) :
  first_terminator (toLowerCase t) = first_terminator t.
Proof.
  induction t as [| c t IH]; [reflexivity |].
  cbn [toLowerCase map first_terminator]. rewrite lower_char_terminator.
  fold (toLowerCase t). rewrite IH. reflexivity.
Qed.

(** X10: the three validators are case-insensitive: each gives the same
    verdict on a candidate and on its lower-cased form. *)
Theorem validators_case_insensitive (t : text) :
  validateIsActionable (toLowerCase t) = validateIsActionable t /\
  validateIsShort (toLowerCase t) = validateIsShort t /\
  validateIsSingleSentence (toLowerCase t) = validateIsSingleSentence t.
Proof.
  split; [| split].
  - unfold validateIsActionable.
    rewrite trim_lower, split_space_first_lower, toLowerCase_idem. reflexivity.
  - unfold validateIsShort. rewrite toLowerCase_idem. reflexivity.
  - rewrite !validateIsSingleSentence_first, first_terminator_lower.
    destruct (first_terminator t) as [k |]; [| reflexivity].
    unfold toLowerCase. rewrite List.skipn_map. fold (toLowerCase (skipn (S k) t)).
    rewrite trim_lower. unfold toLowerCase. rewrite length_map. reflexivity.
Qed.

Definition has_space (v : text) : bool := existsb (Ascii.eqb " "%char) v.

Lemma split_space_first_no_space (s : text) :
  has_space (toLowerCase (split_space_first s)) = false.
Proof.
  induction s as [| c s IH]; [reflexivity |].
  cbn [split_space_first]. destruct (Ascii.eqb c " "%char) eqn:Hc; [reflexivity |].
  cbn [toLowerCase map has_space existsb]. fold (toLowerCase (split_space_first s)).
  fold (has_space (toLowerCase (split_space_first s))). rewrite IH, orb_false_r.
  rewrite Ascii.eqb_sym, lower_char_space. exact Hc.
Qed.

Lemma startsWith_space_free (s v : text) :
  has_space s = false -> has_space v = true -> startsWith s v = false.
Proof.
  revert s. induction v as [| d v IH]; intros s Hs Hv; [discriminate |].
  destruct s as [| c s]; [reflexivity |].
  cbn [has_space existsb] in Hs, Hv. apply orb_false_iff in Hs as [Hc Hs].
  cbn [startsWith]. destruct (Ascii.eqb d c) eqn:Hdc; [| reflexivity].
  apply Ascii.eqb_eq in Hdc. subst d. rewrite Hc in Hv. cbn in Hv.
  apply IH; assumption.
Qed.

Lemma existsb_drop_false {A} (f p : A -> bool) (l : list A) :
  (forall x, In x l -> p x = false -> f x = false) ->
  existsb f l = existsb f (List.filter p l).
Proof.
  induction l as [| x l IH]; intros H; [reflexivity |].
  cbn [List.filter existsb]. destruct (p x) eqn:Hp.
  - cbn. rewrite IH; [reflexivity |]. intros y Hy. apply H. right. exact Hy.
  - rewrite (H x (or_introl eq_refl) Hp). apply IH. intros y Hy. apply H. right. exact Hy.
Qed.

(** X11: the multi-word entries of [ACTION_VERBS] ("look up", "set up",
    "take out", "go to") never make a candidate pass, since the first
    word is cut at the first space: the validator decides as if only the
    single-word entries were listed, and "Look up the word." is rejected. *)
Theorem actionable_multiword_verbs_unused (t : text) :
  validateIsActionable t =
    existsb (fun verb => startsWith (toLowerCase (split_space_first (trim t))) verb)
            (List.filter (fun v => negb (has_space v)) ACTION_VERBS) /\
  List.filter has_space ACTION_VERBS = [js "look up"; js "set up"; js "take out"; js "go to"] /\
  validateIsActionable (js "Look up the word.") = false.
Proof.
  split; [| split; vm_compute; reflexivity].
  unfold validateIsActionable. apply existsb_drop_false.
  intros v _ Hv. apply negb_false_iff in Hv.
  apply startsWith_space_free; [apply split_space_first_no_space | exact Hv].
Qed.

(** A non-empty word of lower-case, non-white-space code units. *)
Definition plain_word (v : text) : bool :=
  match v with
  | [] => false
  | _ => forallb (fun c => negb (is_js_ws c) && Ascii.eqb (lower_char c) c) v
  end.

Lemma single_word_verbs_plain :
  forallb (fun v => has_space v || plain_word v) ACTION_VERBS = true.
Proof. vm_compute. reflexivity. Qed.

Lemma plain_word_lower (v : text) :
  forallb (fun c => negb (is_js_ws c) && Ascii.eqb (lower_char c) c) v = true ->
  toLowerCase v = v.
Proof.
  induction v as [| c v IH]; intros H; [reflexivity |].
  cbn in H. apply andb_true_iff in H as [Hc Hv]. apply andb_true_iff in Hc as [_ Hc].
  apply Ascii.eqb_eq in Hc. cbn. rewrite Hc. f_equal. apply IH. exact Hv.
Qed.

Lemma trim_start_app (a b : text) :
  trim_start (a ++ b) = match trim_start a with [] => trim_start b | x => x ++ b end.
Proof.
  induction a as [| c a IH]; [reflexivity |].
  cbn. destruct (is_js_ws c); [exact IH | reflexivity].
Qed.

Lemma trim_start_nonws (c : ascii) (s : text) :
  is_js_ws c = false -> trim_start (c :: s) = c :: s.
Proof. intros H. cbn. rewrite H. reflexivity. Qed.

(** Trimming a text that starts with a word of non-white-space code
    units keeps the word in front. *)
Lemma trim_word_app (v rest : text) :
  v <> [] -> forallb (fun c => negb (is_js_ws c)) v = true ->
  exists w, trim (v ++ rest) = v ++ w.
Proof.
  intros Hne Hv. unfold trim.
  assert (Hall : forall c, In c v -> is_js_ws c = false).
  { intros c Hc. rewrite forallb_forall in Hv. apply negb_true_iff. apply Hv. exact Hc. }
  assert (Hv0 : trim_start (v ++ rest) = v ++ rest).
  { destruct v as [| c v']; [contradiction |].
    apply trim_start_nonws, Hall. left. reflexivity. }
  rewrite Hv0, rev_app_distr, trim_start_app.
  assert (Hrv : trim_start (rev v) = rev v).
  { destruct (rev v) as [| d r] eqn:Hr.
    - reflexivity.
    - apply trim_start_nonws, Hall. apply in_rev. rewrite Hr. left. reflexivity. }
  destruct (trim_start (rev rest)) as [| x xs].
  - rewrite Hrv, rev_involutive. exists []. rewrite app_nil_r. reflexivity.
  - rewrite rev_app_distr, rev_involutive. eexists. reflexivity.
Qed.

Lemma split_space_first_app (v w : text) :
  has_space v = false -> split_space_first (v ++ w) = v ++ split_space_first w.
Proof.
  induction v as [| c v IH]; intros H; [reflexivity |].
  cbn [has_space existsb] in H. apply orb_false_iff in H as [Hc H].
  cbn [app split_space_first]. rewrite Ascii.eqb_sym, Hc. f_equal. apply IH. exact H.
Qed.

(** X12: the actionable check is a prefix test on the first word: a
    candidate that begins with one of the single-word entries of
    [ACTION_VERBS] passes whatever follows, even with no space after the
    verb (so "Openly ..." or "Testify ..." pass). *)
Theorem actionable_verb_prefix_passes (v rest : text) :
  In v ACTION_VERBS -> has_space v = false -> validateIsActionable (v ++ rest) = true.
Proof.
  intros Hin Hsp.
  pose proof single_word_verbs_plain as Hp. rewrite forallb_forall in Hp.
  specialize (Hp v Hin). rewrite Hsp in Hp. cbn [orb] in Hp.
  assert (Hne : v <> []) by (intros ->; discriminate).
  assert (Hfa : forallb (fun c => negb (is_js_ws c) && Ascii.eqb (lower_char c) c) v = true)
    by (destruct v; [contradiction | exact Hp]).
  assert (Hws : forallb (fun c => negb (is_js_ws c)) v = true).
  { clear Hin Hsp Hne Hp. induction v as [| c v IH]; [reflexivity |].
    cbn in Hfa |- *. apply andb_true_iff in Hfa as [Hc Hfa].
    apply andb_true_iff in Hc as [Hc _]. rewrite Hc. apply IH. exact Hfa. }
  destruct (trim_word_app v rest Hne Hws) as [w Hw].
  unfold validateIsActionable. rewrite Hw, split_space_first_app by exact Hsp.
  unfold toLowerCase. rewrite map_app. fold (toLowerCase v).
  rewrite (plain_word_lower v Hfa).
  apply existsb_exists. exists v. split; [exact Hin |].
  apply startsWith_iff. eexists. reflexivity.
Qed.

Lemma first_terminator_app (a b : text) :
  first_terminator (a ++ b) =
    match first_terminator a with
    | Some k => Some k
    | None => option_map (fun i => length a + i) (first_terminator b)
    end.
Proof.
  induction a as [| c a IH]; cbn [app first_terminator length].
  - destruct (first_terminator b); reflexivity.
  - destruct (existsb (Ascii.eqb c) terminators); [reflexivity |].
    rewrite IH. destruct (first_terminator a); [reflexivity |].
    destruct (first_terminator b); reflexivity.
Qed.

Lemma first_terminator_bound (t : text) (k : nat) :
  first_terminator t = Some k -> k < length t.
Proof.
  revert k. induction t as [| c t IH]; intros k H; cbn [first_terminator] in H; [discriminate |].
  destruct (existsb (Ascii.eqb c) terminators).
  - injection H as <-. cbn. lia.
  - destruct (first_terminator t) as [j |] eqn:Hj; [| discriminate].
    injection H as <-. specialize (IH j eq_refl). cbn. lia.
Qed.

Lemma terminator_not_ws (c : ascii) : In c terminators -> is_js_ws c = false.
Proof. intros [<- | [<- | [<- | []]]]; reflexivity. Qed.

(** X13: a candidate that ends in two sentence terminators, such as
    "..." or "?!", is always rejected by the single-sentence validator,
    because the second one is non-white-space text after the first. *)
Theorem single_sentence_rejects_double_terminator (t : text) (c1 c2 : ascii) :
  In c1 terminators -> In c2 terminators ->
  validateIsSingleSentence (t ++ [c1; c2]) = false.
Proof.
  intros H1 H2. rewrite validateIsSingleSentence_first.
  assert (Hf : exists k, first_terminator (t ++ [c1; c2]) = Some k /\ k <= length t).
  { rewrite first_terminator_app.
    destruct (first_terminator t) as [k |] eqn:Hk.
    - exists k. split; [reflexivity |]. apply first_terminator_bound in Hk. lia.
    - cbn [first_terminator]. destruct H1 as [<- | [<- | [<- | []]]];
        cbn; exists (length t + 0); split; (reflexivity || lia). }
  destruct Hf as (k & -> & Hk).
  replace (t ++ [c1; c2]) with ((t ++ [c1]) ++ [c2]) by (rewrite <- app_assoc; reflexivity).
  rewrite skipn_app, length_app. cbn [length].
  replace (S k - (length t + 1)) with 0 by lia. cbn [skipn].
  assert (Hne : trim (skipn (S k) (t ++ [c1]) ++ [c2]) <> []).
  { rewrite trim_nil. apply not_all_ws. exists c2.
    split; [apply in_or_app; right; left; reflexivity | apply terminator_not_ws; exact H2]. }
  destruct (trim (skipn (S k) (t ++ [c1]) ++ [c2])); [contradiction | reflexivity].
Qed.

(** X14: the prompt is one fixed template with the task description
    spliced in verbatim, right after the label TASK: and an opening
    double quote, and before a closing double quote; nothing else in it depends on the task. *)
Theorem prompt_interpolates_description :
  exists before after : text,
    (forall task : Task, createFirstStepPrompt task = before ++ description task ++ after) /\
    (exists b0, before = b0 ++ js "TASK: " ++ [dquote]) /\
    (exists a0, after = dquote :: a0).
Proof.
  exists (firstn 920 (createFirstStepPrompt {| description := [] |})),
         (skipn 920 (createFirstStepPrompt {| description := [] |})).
  split; [| split].
  - intros task. vm_compute. reflexivity.
  - exists (firstn 913 (createFirstStepPrompt {| description := [] |})).
    vm_compute. reflexivity.
  - eexists. vm_compute. reflexivity.
Qed.

(** The raw text of a JSON object whose only member is the key
    suggestion mapped to the string literal [t]. *)
Definition suggestion_response (t : text) : text :=
  "{"%char :: dquote :: js "suggestion" ++ dquote :: ":"%char :: " "%char :: dquote
  :: t ++ [dquote; "}"%char].

(** A code unit that stands for itself inside a JSON string literal. *)
Definition json_plain_char (c : ascii) : bool :=
  negb (Ascii.eqb c dquote) && negb (Ascii.eqb c "\"%char) && (32 <=? code c).

Lemma parse_str_body_plain (t rest acc : text) :
  forallb json_plain_char t = true ->
  parse_str_body (t ++ dquote :: rest) acc = Some (rev acc ++ t, rest).
Proof.
  revert acc. induction t as [| c t IH]; intros acc Ht.
  - cbn [app]. unfold parse_str_body. rewrite Ascii.eqb_refl, app_nil_r. reflexivity.
  - cbn [forallb] in Ht. apply andb_true_iff in Ht as [Hc Ht].
    unfold json_plain_char in Hc. apply andb_true_iff in Hc as [Hc Hcode].
    apply andb_true_iff in Hc as [Hq Hb]. apply negb_true_iff in Hq, Hb.
    cbn [app]. unfold parse_str_body; fold parse_str_body.
    rewrite Hq, Hb.
    replace (code c <? 32) with false
      by (symmetry; apply Nat.ltb_ge; apply Nat.leb_le in Hcode; exact Hcode).
    rewrite IH by exact Ht. cbn [rev]. rewrite <- app_assoc. reflexivity.
Qed.

Lemma JSON_parse_suggestion_response (t : text) :
  forallb json_plain_char t = true ->
  JSON_parse (suggestion_response t) = Some (JObj [(js "suggestion", JStr t)]).
Proof.
  intros Ht. unfold JSON_parse.
  replace (2 * length (suggestion_response t) + 2)
    with (S (S (S (2 * length t + 35)))).
  2: { unfold suggestion_response. simpl. rewrite length_app. simpl. lia. }
  unfold suggestion_response. simpl.
  rewrite parse_str_body_plain by exact Ht. simpl. reflexivity.
Qed.

Lemma suggestion_response_braced (t : text) :
  suggestion_response t =
    "{"%char :: (dquote :: js "suggestion" ++ dquote :: ":"%char :: " "%char :: dquote
                 :: t ++ [dquote]) ++ ["}"%char].
Proof.
  unfold suggestion_response. cbn [app]. f_equal. f_equal.
  rewrite <- app_assoc. cbn [app]. rewrite <- app_assoc. reflexivity.
Qed.

(** X15: a response that carries one well-formed JSON object
    with a plain string under the key suggestion, surrounded by chatter
    with no opening brace before it and no closing brace after it, yields
    exactly that string; the string itself may contain braces. *)
Theorem extractSuggestion_round_trip (pre t post : text) :
  ~ In "{"%char pre -> ~ In "}"%char post ->
  forallb json_plain_char t = true ->
  extractSuggestion (pre ++ suggestion_response t ++ post) = inr t.
Proof.
  intros Hpre Hpost Ht. unfold extractSuggestion.
  rewrite suggestion_response_braced, regex_match_wrapped by assumption.
  rewrite <- suggestion_response_braced, JSON_parse_suggestion_response by exact Ht.
  reflexivity.
Qed.

(** X16: end to end, when the user has a current task and the model
    answers with a clean suggestion object amid chatter, and the
    suggestion passes the three validators, [generateFirstStep]
    succeeds and stores exactly that suggestion, tied to the current
    task, leaving the current tasks alone. *)
Theorem generateFirstStep_stores_model_answer
    (st : Focus) (uid : string) (llm : LLM) (task : Task) (pre t post : text) :
  currentTasks st !! uid = Some task ->
  llm (createFirstStepPrompt task) = inr (pre ++ suggestion_response t ++ post) ->
  ~ In "{"%char pre -> ~ In "}"%char post ->
  forallb json_plain_char t = true ->
  all_validators t = true ->
  generateFirstStep uid llm st =
    ({| currentTasks := currentTasks st;
        suggestions := <[uid := {| forTask := task; suggestionText := t |}]>
                         (suggestions st) |}, inr tt).
Proof.
  intros Htask Hllm Hpre Hpost Ht Hv.
  rewrite generateFirstStep_unfold, Htask, Hllm.
  rewrite extractSuggestion_round_trip by assumption.
  unfold all_validators in Hv.
  apply andb_true_iff in Hv as [Hv Hs]. apply andb_true_iff in Hv as [Ha Hb].
  rewrite Ha, Hb, Hs. reflexivity.
Qed.

(** ** Further properties of the validators and of extraction *)

Lemma trim_start_ws (ws s : text) :
  Forall (fun c => is_js_ws c = true) ws -> trim_start (ws ++ s) = trim_start s.
Proof.
  induction 1 as [| c ws Hc _ IH]; [reflexivity |].
  cbn [app trim_start]. rewrite Hc. exact IH.
Qed.

(** X17: white space in front of a candidate never changes the verdict
    of the actionable validator, since it trims first. *)
Theorem actionable_ignores_leading_whitespace (ws t : text) :
  Forall (fun c => is_js_ws c = true) ws ->
  validateIsActionable (ws ++ t) = validateIsActionable t.
Proof.
  intros Hws. unfold validateIsActionable, trim.
  rewrite trim_start_ws by exact Hws. reflexivity.
Qed.

Lemma trim_start_word (w s : text) :
  w <> [] -> forallb (fun c => negb (is_js_ws c)) w = true -> trim_start (w ++ s) = w ++ s.
Proof.
  destruct w as [| c w]; [congruence |]. intros _ H. cbn [forallb] in H.
  apply andb_true_iff in H as [Hc _]. apply negb_true_iff in Hc.
  cbn [app]. apply trim_start_nonws. exact Hc.
Qed.

Lemma word_rev (w : text) :
  w <> [] -> forallb (fun c => negb (is_js_ws c)) w = true ->
  rev w <> [] /\ forallb (fun c => negb (is_js_ws c)) (rev w) = true.
Proof.
  intros Hne Hw. split.
  - intros H. apply Hne. apply (f_equal (@rev ascii)) in H.
    rewrite rev_involutive in H. exact H.
  - apply forallb_forall. intros c Hc. apply in_rev in Hc.
    exact (proj1 (forallb_forall _ w) Hw c Hc).
Qed.

Lemma trim_word (w : text) :
  w <> [] -> forallb (fun c => negb (is_js_ws c)) w = true -> trim w = w.
Proof.
  intros Hne Hw. destruct (word_rev w Hne Hw) as [Hne' Hw'].
  unfold trim. rewrite <- (app_nil_r w) at 1.
  rewrite trim_start_word, app_nil_r by assumption.
  rewrite <- (app_nil_r (rev w)), trim_start_word, app_nil_r, rev_involutive by assumption.
  reflexivity.
Qed.

Lemma trim_word_space (w rest : text) :
  w <> [] -> forallb (fun c => negb (is_js_ws c)) w = true ->
  trim (w ++ " "%char :: rest) = w \/
  exists y, trim (w ++ " "%char :: rest) = w ++ " "%char :: y.
Proof.
  intros Hne Hw. destruct (word_rev w Hne Hw) as [Hne' Hw'].
  unfold trim. rewrite trim_start_word by assumption.
  rewrite rev_app_distr. cbn [rev]. rewrite <- app_assoc. cbn [app].
  rewrite trim_start_app.
  destruct (trim_start (rev rest)) as [| x xs] eqn:E.
  - left. cbn [trim_start]. rewrite space_is_ws.
    rewrite <- (app_nil_r (rev w)), trim_start_word, app_nil_r, rev_involutive by assumption.
    reflexivity.
  - right. exists (rev (x :: xs)). rewrite rev_app_distr. cbn [rev app].
    rewrite rev_involutive, <- app_assoc. reflexivity.
Qed.

Lemma no_ws_no_space (w : text) :
  forallb (fun c => negb (is_js_ws c)) w = true -> has_space w = false.
Proof.
  induction w as [| c w IH]; intros H; [reflexivity |].
  cbn [forallb] in H. apply andb_true_iff in H as [Hc H].
  unfold has_space. cbn [existsb]. fold (has_space w). rewrite IH by exact H.
  destruct (Ascii.eqb " "%char c) eqn:E; [| reflexivity].
  apply Ascii.eqb_eq in E. subst c. discriminate.
Qed.

(** X18: only the first space-delimited word counts: a word without
    white space followed by a space and any rest gets the same verdict
    from the actionable validator as the word alone. *)
Theorem actionable_first_word_only (w rest : text) :
  w <> [] -> forallb (fun c => negb (is_js_ws c)) w = true ->
  validateIsActionable (w ++ " "%char :: rest) = validateIsActionable w.
Proof.
  intros Hne Hw. pose proof (no_ws_no_space w Hw) as Hs.
  assert (Hw0 : split_space_first w = w).
  { rewrite <- (app_nil_r w) at 1. rewrite split_space_first_app by exact Hs.
    apply app_nil_r. }
  unfold validateIsActionable. rewrite (trim_word w), Hw0 by assumption.
  destruct (trim_word_space w rest Hne Hw) as [-> | [y ->]]; [rewrite Hw0; reflexivity |].
  rewrite split_space_first_app by exact Hs. cbn [split_space_first].
  rewrite Ascii.eqb_refl, app_nil_r. reflexivity.
Qed.

(** X19: once the bounded-scope validator rejects a text, it rejects
    every text that contains it: red flags cannot be diluted by
    surrounding words. *)
Theorem bounded_scope_rejection_in_context (pre t post : text) :
  validateIsShort t = false -> validateIsShort (pre ++ t ++ post) = false.
Proof.
  unfold validateIsShort. intros H. apply negb_false_iff in H. apply negb_false_iff.
  apply existsb_exists in H as [p [Hin Hp]]. apply existsb_exists.
  exists p. split; [exact Hin |].
  apply includes_iff in Hp as [a [b Hab]]. apply includes_iff.
  unfold toLowerCase in *. rewrite !map_app, Hab.
  exists (map lower_char pre ++ a), (b ++ map lower_char post).
  rewrite <- !app_assoc. reflexivity.
Qed.

Lemma first_terminator_none (t : text) :
  Forall (fun d => ~ In d terminators) t -> first_terminator t = None.
Proof.
  induction 1 as [| c t Hc _ IH]; [reflexivity |].
  cbn [first_terminator]. rewrite IH.
  destruct (existsb (Ascii.eqb c) terminators) eqn:E; [| reflexivity].
  apply existsb_exists in E as [d [Hd E]]. apply Ascii.eqb_eq in E. subst. contradiction.
Qed.

Lemma skipn_past (t ws : text) (c : ascii) : skipn (S (length t)) (t ++ c :: ws) = ws.
Proof. induction t as [| d t IH]; [reflexivity | exact IH]. Qed.

(** X20: a text without terminators passes the single-sentence
    validator, and so does the same text closed by one terminator and
    followed by white space only. *)
Theorem single_sentence_accepts_one_sentence (t ws : text) (c : ascii) :
  Forall (fun d => ~ In d terminators) t -> In c terminators ->
  Forall (fun d => is_js_ws d = true) ws ->
  validateIsSingleSentence t = true /\ validateIsSingleSentence (t ++ c :: ws) = true.
Proof.
  intros Ht Hc Hws.
  rewrite !validateIsSingleSentence_first, first_terminator_app, first_terminator_none
    by exact Ht.
  split; [reflexivity |].
  cbn [first_terminator].
  replace (existsb (Ascii.eqb c) terminators) with true.
  2: { symmetry. apply existsb_exists. exists c. split; [exact Hc | apply Ascii.eqb_refl]. }
  cbn [option_map]. rewrite Nat.add_0_r, skipn_past, (proj2 (trim_nil ws) Hws).
  reflexivity.
Qed.

Lemma regex_match_no_close (s : text) : ~ In "}"%char s -> regex_match s = None.
Proof.
  induction s as [| c s IH]; intros H; [reflexivity |].
  cbn [regex_match].
  rewrite greedy_close_none, IH by (intros H'; apply H; right; exact H').
  destruct (Ascii.eqb c "{"%char); reflexivity.
Qed.

(** X21: a response with no opening brace, or with no closing brace,
    fails extraction with the no-JSON error. *)
Theorem extractSuggestion_needs_braces (r : text) :
  ~ In "{"%char r \/ ~ In "}"%char r -> extractSuggestion r = inl ErrNoJson.
Proof.
  intros [H | H]; unfold extractSuggestion.
  - rewrite <- (app_nil_r r), regex_match_skip_prefix by exact H. reflexivity.
  - rewrite regex_match_no_close by exact H. reflexivity.
Qed.

(** ** The scenarios of the test suite *)

(** X22: the AI test cases (a fresh [Focus], [setCurrentTask], display,
    [generateFirstStep], display) show the task with no step yet, then
    either the same screen when generation throws, or the task with a
    first step that passed every validator. *)
Theorem ai_test_case_flow (uid : string) (task : Task) (llm : LLM) :
  let st1 := fst (setCurrentTask uid task new_Focus) in
  displayFocus uid st1 = [LHeader uid; LRule; LTask (description task); LNoStepYet; LRuleEnd] /\
  match generateFirstStep uid llm st1 with
  | (st2, inl _) =>
      displayFocus uid st2 = [LHeader uid; LRule; LTask (description task); LNoStepYet; LRuleEnd]
  | (st2, inr _) =>
      exists s, all_validators s = true /\
      displayFocus uid st2 =
        [LHeader uid; LRule; LTask (description task); LFirstStep s; LRuleEnd]
  end.
Proof.
  intros st1.
  assert (Hc : currentTasks st1 !! uid = Some task).
  { unfold st1. rewrite setCurrentTask_run. cbn. apply lookup_insert_eq. }
  assert (Hs : suggestions st1 !! uid = None).
  { unfold st1. rewrite setCurrentTask_run. cbn. apply lookup_delete_eq. }
  assert (Hd : displayFocus uid st1 =
                 [LHeader uid; LRule; LTask (description task); LNoStepYet; LRuleEnd]).
  { unfold displayFocus. rewrite Hc, Hs. reflexivity. }
  split; [exact Hd |].
  rewrite generateFirstStep_unfold, Hc.
  destruct (llm (createFirstStepPrompt task)) as [m | resp]; [exact Hd |].
  destruct (extractSuggestion resp) as [e | s]; [exact Hd |].
  destruct (validateIsActionable s) eqn:Ea; cbn [negb]; [| exact Hd].
  destruct (validateIsShort s) eqn:Eb; cbn [negb]; [| exact Hd].
  destruct (validateIsSingleSentence s) eqn:Ec; cbn [negb]; [| exact Hd].
  exists s. split.
  - unfold all_validators. rewrite Ea, Eb, Ec. reflexivity.
  - unfold displayFocus. cbn [currentTasks suggestions].
    rewrite Hc, lookup_insert_eq. reflexivity.
Qed.

Lemma reachable_valid (st : Focus) : reachable st -> suggestions_valid st.
Proof.
  intros Hr. apply (reachable_invariant suggestions_valid); [| | | | exact Hr].
  - exact suggestions_valid_new.
  - apply suggestions_valid_step_set.
  - apply suggestions_valid_step_clear.
  - apply suggestions_valid_step_gen.
Qed.

(** X23: in every reachable state, a first step that [displayFocus]
    prints is the stored suggestion of the task printed above it, and
    it passed every validator. *)
Theorem displayed_step_belongs_to_displayed_task (st : Focus) (uid : string) (s : text) :
  reachable st ->
  In (LFirstStep s) (displayFocus uid st) ->
  exists task, currentTasks st !! uid = Some task /\
    suggestions st !! uid = Some {| forTask := task; suggestionText := s |} /\
    all_validators s = true /\
    displayFocus uid st = [LHeader uid; LRule; LTask (description task); LFirstStep s; LRuleEnd].
Proof.
  intros Hr Hin. unfold displayFocus in *.
  destruct (suggestions st !! uid) as [sg |] eqn:Es.
  - pose proof (reachable_tied st Hr uid sg Es) as Ht. rewrite Ht in *.
    cbn in Hin. destruct Hin as [H | [H | [H | [H | [H | []]]]]]; try discriminate.
    injection H as <-. exists (forTask sg).
    pose proof (reachable_valid st Hr uid sg Es) as Hv.
    destruct sg as [tk tx]. cbn in *. auto.
  - destruct (currentTasks st !! uid); cbn in Hin; intuition discriminate.
Qed.

(** ** Instances of the further properties at concrete inputs *)

Definition essay_generated : Focus := fst (generateFirstStep "u" open_doc_llm essay_state).

(** A model client that fails on the empty prompt and otherwise answers
    like [open_doc_llm]. *)
Definition picky_llm : LLM :=
  fun p => match p with [] => inl "empty prompt"%string | _ => open_doc_llm p end.

(** A model client that wraps a clean suggestion object in chatter. *)
Definition chatty_llm : LLM :=
  constant_llm (js "Sure: " ++ suggestion_response (js "Open the file.") ++ js " Done.").

Ltac pick_in := cbn; repeat (first [left; reflexivity | right]).
Ltac not_in := let H := fresh in intros H; cbn in H; intuition discriminate.

Lemma methods_frame_other_users_witness :
  "u"%string <> "v"%string /\
  currentTasks (fst (setCurrentTask "u" trip_task prior_state)) !! "v" =
    currentTasks prior_state !! "v".
Proof.
  assert (Huv : "u"%string <> "v"%string) by discriminate.
  split; [exact Huv |].
  pose proof (methods_frame_other_users prior_state "u" "v" trip_task open_doc_llm Huv) as H.
  cbv zeta in H. destruct H as [[H _] _]. exact H.
Defined.

Lemma clear_without_task_noop_witness :
  reachable prior_state /\ currentTasks prior_state !! "v" = None /\
  fst (clearCurrentTask "v" prior_state) = prior_state.
Proof.
  assert (H : currentTasks prior_state !! "v" = None) by (vm_compute; reflexivity).
  split; [exact prior_state_reachable | split; [exact H |]].
  exact (clear_without_task_noop prior_state "v" prior_state_reachable H).
Defined.

Lemma generateFirstStep_success_witness :
  generateFirstStep "u" open_doc_llm essay_state = (essay_generated, inr tt) /\
  exists task response s,
    currentTasks essay_state !! "u" = Some task /\
    open_doc_llm (createFirstStepPrompt task) = inr response /\
    extractSuggestion response = inr s /\ all_validators s = true.
Proof.
  assert (H : generateFirstStep "u" open_doc_llm essay_state = (essay_generated, inr tt))
    by (vm_compute; reflexivity).
  split; [exact H |].
  destruct (generateFirstStep_success _ _ _ _ H) as (task & response & s & H1 & H2 & H3 & H4 & _).
  exists task, response, s. auto.
Defined.

Lemma generateFirstStep_model_use_witness :
  currentTasks essay_state !! "u" = Some essay_task /\
  open_doc_llm (createFirstStepPrompt essay_task) = picky_llm (createFirstStepPrompt essay_task) /\
  generateFirstStep "u" open_doc_llm essay_state = generateFirstStep "u" picky_llm essay_state.
Proof.
  assert (H1 : currentTasks essay_state !! "u" = Some essay_task) by (vm_compute; reflexivity).
  assert (H2 : open_doc_llm (createFirstStepPrompt essay_task) =
               picky_llm (createFirstStepPrompt essay_task)) by (vm_compute; reflexivity).
  split; [exact H1 | split; [exact H2 |]].
  exact (proj2 (generateFirstStep_model_use essay_state "u" open_doc_llm picky_llm)
           essay_task H1 H2).
Defined.

Lemma display_after_generate_witness :
  generateFirstStep "u" open_doc_llm essay_state = (essay_generated, inr tt) /\
  exists task s,
    displayFocus "u" essay_generated =
      [LHeader "u"; LRule; LTask (description task); LFirstStep s; LRuleEnd].
Proof.
  assert (H : generateFirstStep "u" open_doc_llm essay_state = (essay_generated, inr tt))
    by (vm_compute; reflexivity).
  split; [exact H |].
  destruct (display_after_generate _ _ _ _ H) as (task & s & _ & _ & Hd).
  exists task, s. exact Hd.
Defined.

Lemma actionable_verb_prefix_passes_witness :
  In (js "open") ACTION_VERBS /\ has_space (js "open") = false /\
  validateIsActionable (js "open" ++ js "ly weep") = true.
Proof.
  assert (H1 : In (js "open") ACTION_VERBS) by pick_in.
  assert (H2 : has_space (js "open") = false) by (vm_compute; reflexivity).
  split; [exact H1 | split; [exact H2 |]].
  exact (actionable_verb_prefix_passes (js "open") (js "ly weep") H1 H2).
Defined.

Lemma single_sentence_rejects_double_terminator_witness :
  In "!"%char terminators /\ In "?"%char terminators /\
  validateIsSingleSentence (js "Wait" ++ ["!"%char; "?"%char]) = false.
Proof.
  assert (H1 : In "!"%char terminators) by pick_in.
  assert (H2 : In "?"%char terminators) by pick_in.
  split; [exact H1 | split; [exact H2 |]].
  exact (single_sentence_rejects_double_terminator (js "Wait") _ _ H1 H2).
Defined.

Lemma extractSuggestion_round_trip_witness :
  ~ In "{"%char (js "Sure: ") /\ ~ In "}"%char (js " Done.") /\
  forallb json_plain_char (js "Open {it}.") = true /\
  extractSuggestion (js "Sure: " ++ suggestion_response (js "Open {it}.") ++ js " Done.") =
    inr (js "Open {it}.").
Proof.
  assert (H1 : ~ In "{"%char (js "Sure: ")) by not_in.
  assert (H2 : ~ In "}"%char (js " Done.")) by not_in.
  assert (H3 : forallb json_plain_char (js "Open {it}.") = true) by (vm_compute; reflexivity).
  split; [exact H1 | split; [exact H2 | split; [exact H3 |]]].
  exact (extractSuggestion_round_trip _ _ _ H1 H2 H3).
Defined.

Lemma generateFirstStep_stores_model_answer_witness :
  all_validators (js "Open the file.") = true /\
  generateFirstStep "u" chatty_llm essay_state =
    ({| currentTasks := currentTasks essay_state;
        suggestions := <["u" := {| forTask := essay_task;
                                   suggestionText := js "Open the file." |}]>
                         (suggestions essay_state) |}, inr tt).
Proof.
  assert (Hv : all_validators (js "Open the file.") = true) by (vm_compute; reflexivity).
  split; [exact Hv |].
  apply (generateFirstStep_stores_model_answer essay_state "u" chatty_llm essay_task
           (js "Sure: ") (js "Open the file.") (js " Done.")).
  - vm_compute. reflexivity.
  - reflexivity.
  - not_in.
  - not_in.
  - vm_compute. reflexivity.
  - exact Hv.
Defined.

Lemma actionable_ignores_leading_whitespace_witness :
  Forall (fun c => is_js_ws c = true) (js "  ") /\
  validateIsActionable (js "  " ++ js "Open it") = validateIsActionable (js "Open it").
Proof.
  assert (H : Forall (fun c => is_js_ws c = true) (js "  ")) by (cbn; repeat constructor).
  split; [exact H |].
  exact (actionable_ignores_leading_whitespace _ _ H).
Defined.

Lemma actionable_first_word_only_witness :
  forallb (fun c => negb (is_js_ws c)) (js "Debugging") = true /\
  validateIsActionable (js "Debugging" ++ " "%char :: js "the parser") =
    validateIsActionable (js "Debugging").
Proof.
  assert (H : forallb (fun c => negb (is_js_ws c)) (js "Debugging") = true)
    by (vm_compute; reflexivity).
  split; [exact H |].
  apply actionable_first_word_only; [discriminate | exact H].
Defined.

Lemma bounded_scope_rejection_in_context_witness :
  validateIsShort (js "finish the essay") = false /\
  validateIsShort (js "Now " ++ js "finish the essay" ++ js " today.") = false.
Proof.
  assert (H : validateIsShort (js "finish the essay") = false) by (vm_compute; reflexivity).
  split; [exact H |].
  exact (bounded_scope_rejection_in_context _ _ _ H).
Defined.

Lemma single_sentence_accepts_one_sentence_witness :
  validateIsSingleSentence (js "Open the file") = true /\
  validateIsSingleSentence (js "Open the file" ++ "."%char :: js "  ") = true.
Proof.
  apply single_sentence_accepts_one_sentence.
  - cbn. repeat constructor; not_in.
  - pick_in.
  - cbn. repeat constructor.
Defined.

Lemma extractSuggestion_needs_braces_witness :
  extractSuggestion (js "No JSON here.") = inl ErrNoJson.
Proof.
  apply extractSuggestion_needs_braces. left. not_in.
Defined.

Lemma displayed_step_belongs_to_displayed_task_witness :
  reachable prior_state /\
  In (LFirstStep (js "Open a document.")) (displayFocus "u" prior_state) /\
  exists task, currentTasks prior_state !! "u" = Some task /\
               all_validators (js "Open a document.") = true.
Proof.
  assert (H : In (LFirstStep (js "Open a document.")) (displayFocus "u" prior_state)).
  { vm_compute. repeat (first [left; reflexivity | right]). }
  split; [exact prior_state_reachable | split; [exact H |]].
  destruct (displayed_step_belongs_to_displayed_task _ _ _ prior_state_reachable H)
    as (task & Hc & _ & Hv & _).
  exists task. auto.
Defined.
